(** * circfile: the web-workflow file client, embedded in Rocq

    A shallow embedding of [circfile/command_utils.py],
    [circfile/backends.py] and the start-up code of [circfile/commands.py].

    - Python [str] is [string] (a sequence of bytes; comparing UTF-8 byte
      sequences lexicographically agrees with comparing code points, so
      [String.le] is Python's [<=] on [str]).
    - A Python [dict] is a [gmap]; [sorted] is a merge sort.
    - Code that talks to the device runs in a small state-and-exception
      monad [M]: the state records the requests sent so far with the
      device's answers, the strings shown to the user and the log.
    - The host is a POSIX one ([os.path.sep] is [/]). JSON numbers are
      integers. A request stands for its final outcome, the retries of
      the HTTP adapter included; the device does not redirect, so the URL
      of a response is the URL of its request. *)

From Stdlib Require Import ZArith Ascii String.
From stdpp Require Import base tactics option list gmap strings sorting pretty.

Local Open Scope Z_scope.

(** ** Python strings *)

Module Py.

(** [s[:-1]] *)
Fixpoint drop_last (s : string) : string :=
  match s with
  | EmptyString => EmptyString
  | String _ EmptyString => EmptyString
  | String c s' => String c (drop_last s')
  end.

(** [s.split(sep)] for a separator of one character *)
Fixpoint split (sep : ascii) (s : string) : list string :=
  match s with
  | EmptyString => [EmptyString]
  | String c s' =>
      if Ascii.eqb c sep then EmptyString :: split sep s'
      else match split sep s' with
           | w :: ws => String c w :: ws
           | [] => [String c EmptyString]
           end
  end.

(** [sep.join(parts)] *)
Fixpoint join (sep : string) (parts : list string) : string :=
  match parts with
  | [] => ""
  | [p] => p
  | p :: ps => p +:+ sep +:+ join sep ps
  end.

(** [s.startswith(p)] *)
Fixpoint startswith (p s : string) : bool :=
  match p, s with
  | EmptyString, _ => true
  | String a p', String b s' => Ascii.eqb a b && startswith p' s'
  | String _ _, EmptyString => false
  end.

(** [p in s] *)
Fixpoint contains (p s : string) : bool :=
  startswith p s ||
  match s with
  | EmptyString => false
  | String _ s' => contains p s'
  end.

(** [s.replace(old, new)] for a non-empty [old]: scanning from the left,
    every occurrence found is replaced and the scan resumes behind it.
    [skip] counts the characters of a replaced occurrence still to pass. *)
Fixpoint replace_from (skip : nat) (old new s : string) : string :=
  match s with
  | EmptyString => EmptyString
  | String c s' =>
      match skip with
      | S k => replace_from k old new s'
      | O =>
          if startswith old s
          then new +:+ replace_from (Nat.pred (String.length old)) old new s'
          else String c (replace_from O old new s')
      end
  end.

Definition replace (old new s : string) : string := replace_from O old new s.

(** truth value of a [str] *)
Definition truthy (s : string) : bool := negb (String.eqb s "").

(** truth value of a [str] or [None] *)
Definition truthy_opt (o : option string) : bool :=
  match o with
  | Some s => truthy s
  | None => false
  end.

(** [str(b)] *)
Definition str_bool (b : bool) : string := if b then "True" else "False".

(** [str(x)] for an optional string: [None] prints as ["None"]. *)
Definition str_opt (o : option string) : string := default "None" o.

(** [s.endswith(suffix)] *)
Fixpoint endswith (suffix s : string) : bool :=
  String.eqb s suffix ||
  match s with
  | EmptyString => false
  | String _ s' => endswith suffix s'
  end.

(** [sorted(keys)] on strings *)
Definition sorted (keys : list string) : list string := merge_sort String.le keys.

End Py.

(** ** The device, the local disk and urllib, as the client sees them *)

(** One entry of a directory listing, as the device reports it. *)
Record entry := Entry {
  name : string;
  file_size : Z;
  directory : bool
}.

Global Instance entry_eq_dec : EqDecision entry.
Proof. solve_decision. Defined.

Inductive method := GET | PUT | DELETE.

(** [requests.auth.HTTPBasicAuth(username, password)], or no [auth=]. *)
Inductive auth := NoAuth | HTTPBasicAuth (username : string) (password : option string).

Record request := Request {
  meth : method;
  url : string;
  data : option (list Byte.byte);     (* the body; [None] for an empty one *)
  req_auth : auth;
  accept_json : bool;                 (* headers={"Accept": "application/json"} *)
  req_timeout : option Z
}.

(** JSON values the client reads out of a response: [null], booleans,
    integers and strings. *)
Inductive jvalue := JNull | JBool (b : bool) | JInt (z : Z) | JStr (s : string).

(** The body of a response, as [r.json()] finds it. *)
Inductive json_body :=
  | NotJSON                               (* no JSON text: [r.json()] raises *)
  | JSONObject (d : gmap string jvalue)   (* [r.json()] is a [dict] *)
  | JSONOther.                            (* a list, number, string, boolean or null *)

Record response := Response {
  status_code : Z;
  json : json_body
}.

(** How a request ends: [requests] gives up on the connection
    ([ConnectionError], a connect timeout included), the device accepts the
    connection and stays silent for the [timeout=] of the request
    ([ReadTimeout], which [requests] raises for a request sent with a
    timeout only), or the device answers. *)
Inductive answer := ConnectionFailed | TimedOut | Answered (r : response).

(** The exceptions of a run. An [HTTPError] is the one of
    [raise_for_status]; its message names the status and [r.url], the URL
    the request went to, and [url] keeps that URL. [UnicodeError] is a
    [ValueError] for every [except] clause. *)
Inductive exn :=
  | SystemExit (code : Z)
  | HTTPError (status : Z) (url : string)
  | ConnectionError
  | ReadTimeout
  | JSONDecodeError
  | ValueError (msg : string)
  | UnicodeError (msg : string)
  | RuntimeError (msg : string)
  | TypeError
  | AttributeError
  | IndexError
  | KeyError
  | OSError.

Inductive outcome (A : Type) := Returned (a : A) | Raised (e : exn).
Arguments Returned {A} a.
Arguments Raised {A} e.

(** What an observer of a run sees: the requests to the device with their
    answers in the order they were sent, the strings shown to the user
    ([click.echo], [click.secho], [print]) and the records passed to the
    logger. *)
Record world := World {
  trace : list (request * answer);
  display : list string;
  log : list string
}.

Definition M (A : Type) : Type := world → outcome A * world.

Global Instance M_ret : MRet M := λ A a w, (Returned a, w).
Global Instance M_bind : MBind M := λ A B f m w,
  match m w with
  | (Returned a, w') => f a w'
  | (Raised e, w') => (Raised e, w')
  end.

Definition raise {A} (e : exn) : M A := λ w, (Raised e, w).

(** [try: body except ...: handler]; [handler e] is [None] for an
    exception no [except] clause matches. *)
Definition try_except {A} (body : M A) (handler : exn → option (M A)) : M A := λ w,
  match body w with
  | (Raised e, w') =>
      match handler e with
      | Some h => h w'
      | None => (Raised e, w')
      end
  | r => r
  end.

Definition echo (msg : string) : M unit := λ w,
  (Returned (), World (trace w) (display w ++ [msg]) (log w)).

Definition logger_write (msg : string) : M unit := λ w,
  (Returned (), World (trace w) (display w) (log w ++ [msg])).

Fixpoint for_each {A} (l : list A) (body : A → M unit) : M unit :=
  match l with
  | [] => mret ()
  | x :: l' => body x ;; for_each l' body
  end.

(** [urllib.parse]: [urljoin(base, url, allow_fragments)] and
    [urlparse(url).password]. Both belong to the Python library; the
    development is parametric in them. *)
Class Urllib := {
  urljoin : string → string → bool → string;
  urlparse_password : string → option string
}.

(** [socket.getaddrinfo(host, 80, proto=socket.IPPROTO_TCP)]: it
    returns, raises [socket.gaierror], or raises the [UnicodeError] of the
    [idna] codec for a name that cannot be encoded (an empty label, as in
    [a..b]), with the message of that error. *)
Inductive resolution := Resolved | Gaierror | CodecError (msg : string).

(** The network: name resolution, and the device's answer to a request
    given everything that was sent before. *)
Class Device := {
  getaddrinfo : string → resolution;
  respond : list (request * answer) → request → answer
}.

(** A file or directory of the local disk; a directory lists its entries
    in the order [os.scandir] reports them. *)
#[warnings="-register-all"]
Inductive node :=
  | File (content : list Byte.byte)
  | Dir (entries : list (string * node)).

Class LocalFS := { lookup_path : string → option node }.

(** What a listing response carries besides its status: the text
    [print(r.content)] writes and the value of [r.json()["files"]], a list
    of entries, or the exception raised on the way to it. *)
Class Listing := {
  content_repr : response → string;
  json_files : response → outcome (list entry)
}.

(** Sending one request: the answer joins the trace; a failed connection
    raises [requests.exceptions.ConnectionError], a silent device
    [requests.exceptions.ReadTimeout], which is no [ConnectionError]. *)
Definition send `{Device} (req : request) : M response := λ w,
  let a := respond (trace w) req in
  let w' := World (trace w ++ [(req, a)]) (display w) (log w) in
  match a with
  | ConnectionFailed => (Raised ConnectionError, w')
  | TimedOut => (Raised ReadTimeout, w')
  | Answered r => (Returned r, w')
  end.

(** [r.raise_for_status()] for the response [r] to a request sent to
    [url], which is what [r.url] holds. *)
Definition is_error_status (s : Z) : bool := (400 <=? s) && (s <? 600).

Definition raise_for_status (url : string) (r : response) : M unit :=
  if is_error_status (status_code r)
  then raise (HTTPError (status_code r) url)
  else mret ().

(** [os.path.isdir] *)
Definition isdir `{LocalFS} (p : string) : bool :=
  match lookup_path p with Some (Dir _) => true | _ => false end.

Definition subdirs (es : list (string * node)) : list string :=
  omap (λ e, match e.2 with Dir _ => Some e.1 | File _ => None end) es.

Definition nondirs (es : list (string * node)) : list (string * list Byte.byte) :=
  omap (λ e, match e.2 with File c => Some (e.1, c) | Dir _ => None end) es.

(** [os.walk(top)], top-down: a directory yields its own triple, then the
    walks of its sub-directories in listing order. [root] is kept as the
    list of components below [top]; a file name comes with the content
    [open(os.path.join(root, name), "rb").read()] returns. *)
Fixpoint os_walk (root : list string) (n : node)
  : list (list string * list string * list (string * list Byte.byte)) :=
  match n with
  | File _ => []
  | Dir es =>
      (root, subdirs es, nondirs es)
      :: flat_map (λ e, os_walk (root ++ [e.1]) e.2) es
  end.

Definition os_walk_path `{LocalFS} (top : string)
  : list (list string * list string * list (string * list Byte.byte)) :=
  match lookup_path top with
  | Some n => os_walk [] n
  | None => []
  end.

(** [os.path.relpath(root, top)] for a [root] met by [os.walk(top)] *)
Definition relpath (root : list string) : string :=
  match root with
  | [] => "."
  | _ => Py.join "/" root
  end.

(** Python values computed from JSON fields. *)
Module PyVal.

(** [x is None] *)
Definition is_none (o : option jvalue) : bool :=
  match o with None | Some JNull => true | _ => false end.

(** [x is False] *)
Definition is_false (o : option jvalue) : bool :=
  match o with Some (JBool false) => true | _ => false end.

(** [str(x)] *)
Definition str (v : jvalue) : string :=
  match v with
  | JNull => "None"
  | JBool b => Py.str_bool b
  | JInt z => pretty z
  | JStr s => s
  end.

(** [s * n] on a string *)
Fixpoint repeat_str (n : nat) (s : string) : string :=
  match n with
  | O => ""
  | S k => s +:+ repeat_str k s
  end.

(** [x < n] for an integer literal [n]; [bool] is a subtype of [int]. *)
Definition lt_int (v : jvalue) (n : Z) : outcome bool :=
  match v with
  | JInt z => Returned (z <? n)
  | JBool b => Returned (Z.b2z b <? n)
  | JNull | JStr _ => Raised TypeError
  end.

(** [x * y] *)
Definition mul (x y : jvalue) : outcome jvalue :=
  match x, y with
  | JInt a, JInt b => Returned (JInt (a * b))
  | JInt a, JBool b => Returned (JInt (a * Z.b2z b))
  | JBool a, JInt b => Returned (JInt (Z.b2z a * b))
  | JBool a, JBool b => Returned (JInt (Z.b2z a * Z.b2z b))
  | JStr s, JInt n | JInt n, JStr s => Returned (JStr (repeat_str (Z.to_nat n) s))
  | JStr s, JBool b | JBool b, JStr s => Returned (JStr (repeat_str (Nat.b2n b) s))
  | _, _ => Raised TypeError
  end.

End PyVal.

Definition lift {A} (o : outcome A) : M A := λ w, (o, w).

(** [r.json()], read as a dictionary by the access that follows it. On
    JSON that is no object that access raises [not_a_dict]:
    [AttributeError] for [.get(key)], [TypeError] for [[key]]. *)
Definition json_of (r : response) (not_a_dict : exn) : M (gmap string jvalue) :=
  match json r with
  | NotJSON => raise JSONDecodeError
  | JSONObject d => mret d
  | JSONOther => raise not_a_dict
  end.

(** ** backends.py *)

(** The fields of [circup.module.Module] that [_update_http] reads. *)
Record Module_ := {
  file : bool;
  bundle_path : string;
  path : string
}.

Record WebBackend := {
  host : string;
  password : string;
  timeout : Z
}.

Module backends.

Definition writeable_message : string :=
  "CircuitPython Web Workflow Device not writable" +:+ String "010" " - "
  +:+ "Remount storage as writable to device (not PC)".

Definition _writeable_error {A} : M A :=
  echo writeable_message ;; raise (SystemExit 1).

Definition FS_PATH : string := "fs/".
Definition LIB_DIR_PATH : string := FS_PATH +:+ "lib/".

Definition device_location (self : WebBackend) : string :=
  "http://:" +:+ password self +:+ "@" +:+ host self.

(** [WebBackend.__init__] *)
Definition invalid_host_message (host : string) : string :=
  if Py.contains "http://" host || Py.contains "https://" host
  then "Invalid host: " +:+ host +:+ "." +:+ " You should remove the 'http://'"
  else "Could not find or connect to specified device".

Definition init `{Device} (host : string) (password : option string) (timeout : Z)
  : M WebBackend :=
  match password with
  | None =>
      raise (ValueError
        "Must pass --password or set CIRCUP_WEBWORKFLOW_PASSWORD environment variable")
  | Some pw =>
      match getaddrinfo host with
      | Resolved => mret {| host := host; password := pw; timeout := timeout |}
      | Gaierror => raise (RuntimeError (invalid_host_message host))
      | CodecError msg => raise (UnicodeError msg)
      end
  end.

(** [parts[-2] if parts[-1] == "" else parts[-1]] for
    [parts = source.split(os.path.sep)], on a POSIX host. *)
Definition source_name (source : string) : outcome string :=
  let parts := Py.split "/" source in
  match last parts with
  | Some "" =>
      if decide (2 ≤ length parts)%nat
      then Returned (default "" (parts !! (length parts - 2)%nat))
      else Raised IndexError
  | Some n => Returned n
  | None => Raised IndexError
  end.

(** [path + "/" if path[:-1] != "/" else path] *)
Definition with_trailing_slash (path : string) : string :=
  if String.eqb (Py.drop_last path) "/" then path else path +:+ "/".

(** The check after every write or delete request, sent to [url]. *)
Definition check_status (url : string) (r : response) : M unit :=
  (if status_code r =? 409 then _writeable_error else mret ()) ;;
  raise_for_status url r.

Section with_environment.
Context `{urllib : !Urllib, device : !Device, disk : !LocalFS}.

Definition session_put (self : WebBackend) (target : string)
    (body : option (list Byte.byte)) (a : auth) : M response :=
  send (Request PUT target body a false (Some (timeout self))).

Definition session_delete (self : WebBackend) (target : string) (a : auth) : M response :=
  send (Request DELETE target None a false (Some (timeout self))).

(** [open(path, "rb").read()] *)
Definition read_file (path : string) : M (list Byte.byte) :=
  match lookup_path path with
  | Some (File c) => mret c
  | _ => raise OSError
  end.

Definition install_file_http (self : WebBackend) (source : string)
    (location : option string) : M unit :=
  file_name ← lift (source_name source);
  let target :=
    match location with
    | None => device_location self +:+ "/" +:+ LIB_DIR_PATH +:+ file_name
    | Some location => device_location self +:+ "/" +:+ FS_PATH +:+ location +:+ file_name
    end in
  let auth := HTTPBasicAuth "" (Some (password self)) in
  content ← read_file source;
  r ← session_put self target (Some content) auth;
  check_status target r.

(** Lines 150-156: the URL of the top-level directory. *)
Definition install_dir_target (self : WebBackend) (source : string)
    (location : option string) : outcome string :=
  match source_name source with
  | Returned mod_name =>
      let target :=
        match location with
        | None => device_location self +:+ "/" +:+ LIB_DIR_PATH +:+ mod_name
        | Some location =>
            device_location self +:+ "/" +:+ FS_PATH +:+ location +:+ mod_name
        end in
      Returned (with_trailing_slash target)
  | Raised e => Raised e
  end.

(** The URL of an entry [name] of the directory [rel_path] below [target]. *)
Definition path_to_create (target rel_path name : string) : string :=
  if Py.truthy rel_path
  then urljoin (urljoin target (rel_path +:+ "/") false) name false
  else urljoin target name false.

Definition install_dir_http (self : WebBackend) (source : string)
    (location : option string) : M unit :=
  target ← lift (install_dir_target self source location);
  let auth := HTTPBasicAuth "" (urlparse_password target) in
  (* Create the top level directory. *)
  r ← session_put self target None auth;
  check_status target r ;;
  (* Traverse the directory structure and create the directories/files. *)
  for_each (os_walk_path source) (λ '(root, dirs, files),
    let rel_path := relpath root in
    let rel_path := if String.eqb rel_path "." then "" else rel_path in
    for_each dirs (λ name,
      let path_to_create := with_trailing_slash (path_to_create target rel_path name) in
      r ← session_put self path_to_create None auth;
      check_status path_to_create r) ;;
    for_each files (λ '(name, content),
      let path_to_create := path_to_create target rel_path name in
      r ← session_put self path_to_create (Some content) auth;
      check_status path_to_create r)).

Definition _create_library_directory (self : WebBackend)
    (device_path library_path : string) : M unit :=
  let auth := HTTPBasicAuth "" (urlparse_password device_path) in
  r ← session_put self library_path None auth;
  check_status library_path r.

Definition upload_file (self : WebBackend) (target_file : string)
    (location_to_paste : option string) : M unit :=
  if isdir target_file
  then
    match location_to_paste with
    | None => raise TypeError        (* "/".join of a tuple holding None *)
    | Some location_to_paste =>
        let create_directory_url :=
          urljoin (device_location self)
                  (Py.join "/" ["fs"; location_to_paste; target_file; ""]) true in
        _create_library_directory self (device_location self) create_directory_url ;;
        install_dir_http self target_file None
    end
  else install_file_http self target_file None.

Definition uninstall (self : WebBackend) (device_path module_path : string) : M unit :=
  let auth := HTTPBasicAuth "" (urlparse_password device_path) in
  r ← session_delete self module_path auth;
  check_status module_path r.

Definition _update_http (self : WebBackend) (module : Module_) : M unit :=
  if file module
  then
    (* Copy the file (will overwrite). *)
    install_file_http self (bundle_path module) None
  else
    (* Delete the directory (recursive) first. *)
    let auth := HTTPBasicAuth "" (urlparse_password (path module)) in
    r ← session_delete self (path module) auth;
    check_status (path module) r ;;
    install_dir_http self (bundle_path module) None.

Definition update (self : WebBackend) (module : Module_) : M unit :=
  _update_http self module.

Definition get_file_path (self : WebBackend) (filename : string) : string :=
  urljoin (urljoin (device_location self) "fs/" false) filename false.

Definition is_device_present (self : WebBackend) : M bool :=
  try_except
    (let url := device_location self +:+ "/cp/version.json" in
     r ← send (Request GET url None NoAuth false None);
     raise_for_status url r ;;
     d ← json_of r AttributeError;
     let web_api_version := d !! "web_api_version" in
     match web_api_version with
     | None | Some JNull =>
         logger_write "Unable to get web API version from device." ;;
         echo "Unable to get web API version from device." ;;
         mret false
     | Some v =>
         too_old ← lift (PyVal.lt_int v 4);
         if too_old : bool
         then
           logger_write
             ("Device running unsupported web API version " +:+ PyVal.str v +:+ " < 4.") ;;
           echo ("Device running unsupported web API version " +:+ PyVal.str v +:+ " < 4.") ;;
           mret false
         else mret true
     end)
    (λ e, match e with ConnectionError => Some (mret false) | _ => None end).

Definition get_free_space (self : WebBackend) : M jvalue :=
  let auth := HTTPBasicAuth "" (Some (password self)) in
  let url := urljoin (device_location self) "fs/" true in
  r ← send (Request GET url None auth true (Some (timeout self)));
  raise_for_status url r ;;
  d ← json_of r AttributeError;
  match d !! "free", d !! "block_size" with
  | None, _ | Some JNull, _ =>
      logger_write "Unable to get free block count from device." ;;
      echo "Unable to get free block count from device." ;;
      raise (SystemExit 1)
  | Some _, None | Some _, Some JNull =>
      logger_write "Unable to get block size from device." ;;
      echo "Unable to get block size from device." ;;
      raise (SystemExit 1)
  | Some free, Some block_size =>
      if PyVal.is_none (d !! "writable") || PyVal.is_false (d !! "writable")
      then
        logger_write writeable_message ;;
        echo writeable_message ;;
        raise (SystemExit 1)
      else lift (PyVal.mul free block_size)
  end.

Definition file_exists (self : WebBackend) (filepath : string) : M bool :=
  let auth := HTTPBasicAuth "" (Some (password self)) in
  resp ← send (Request GET (get_file_path self filepath) None auth false
                       (Some (timeout self)));
  mret (status_code resp =? 200).

End with_environment.

Section listing.
Context `{urllib : !Urllib, device : !Device, listing : !Listing}.

Definition list_dir (self : WebBackend) (dirpath : string) : M (list entry) :=
  let auth := HTTPBasicAuth "" (Some (password self)) in
  r ← send (Request GET
              (urljoin (device_location self)
                       ("fs/" +:+ (if Py.truthy dirpath then dirpath else "")) true)
              None auth true (Some (timeout self)));
  echo (content_repr r) ;;
  lift (json_files r).

End listing.

End backends.

(** ** shared.py, and what start-up reads from the host computer *)

(** What the start-up code reads from the host computer and from services
    other than the device. *)
Class Host := {
  getenv_password : option string;   (* os.getenv("CIRCUP_WEBWORKFLOW_PASSWORD") *)
  mounted_device : option string;    (* the CIRCUITPY volume among the mounts *)
  circup_version : option string;    (* get_circup_version() *)
  update_check : string → list string;
    (* the lines update_checker prints, once it has asked the package
       index: a request of that library to another server, which the
       trace, made of the requests to the device, does not hold *)
  invoked_subcommand : option string;
  argv_has_help : bool;              (* "--help" in sys.argv *)
  release_head : option (string * option string);
    (* requests.head of the release page: response.url and, for a
       redirect, its Location header; None when the request fails *)
  LOGFILE : string
}.

Module shared.

Definition BOARDLESS_COMMANDS : list string :=
  ["show"; "bundle-add"; "bundle-remove"; "bundle-show"].

Definition get_latest_release_from_url `{!Host} (url : string) : M string :=
  logger_write ("Requesting redirect information: " +:+ url) ;;
  match release_head with
  | None => raise ConnectionError
  | Some (response_url, location) =>
      let responseurl := default response_url location in
      let tag := default "" (last (Py.split "/" responseurl)) in
      logger_write ("Tag: '" +:+ tag +:+ "'") ;;
      mret tag
  end.

End shared.

(** ** command_utils.py *)

Module command_utils.

(** [dict.keys()]; the order does not matter to [sorted]. *)
Definition keys (d : gmap string entry) : list string := (map_to_list d).*1.

(** The body of the loop over [list_of_files]. *)
Definition file_step (acc : gmap string entry * gmap string entry) (cur_file : entry)
  : gmap string entry * gmap string entry :=
  if directory cur_file
  then (<[name cur_file := cur_file]> acc.1, acc.2)
  else (acc.1, <[name cur_file := cur_file]> acc.2).

Definition sorted_by_directory_then_alpha (list_of_files : list entry) : list entry :=
  let '(dirs, files) := foldl file_step (∅, ∅) list_of_files in
  let sorted_dir_names := Py.sorted (keys dirs) in
  let sorted_file_names := Py.sorted (keys files) in
  omap (λ cur_name, dirs !! cur_name) sorted_dir_names
  ++ omap (λ cur_name, files !! cur_name) sorted_file_names.

Definition find_device `{!Host} : M (option string) :=
  let device_dir := mounted_device in
  logger_write ("Found device: " +:+ Py.str_opt device_dir) ;;
  mret device_dir.

Definition get_device_path `{!Host} (host password path : option string)
  : M (option string) :=
  if Py.truthy_opt path then mret path
  else if Py.truthy_opt host
  then mret (Some ("http://:" +:+ Py.str_opt password +:+ "@" +:+ default "" host))
  else find_device.

End command_utils.

(** ** commands.py *)

Module commands.
Import command_utils.

Section with_environment.
Context `{urllib : !Urllib, device : !Device, disk : !LocalFS, computer : !Host}.

(** The [if using_webworkflow:] block of [main]: resolves the default
    host name and builds the backend. *)
Definition connect (host : string) (password device_path : option string) (timeout : Z)
  : M (option string * WebBackend) :=
  '(host, device_path) ←
    (if String.eqb host "circuitpython.local"
     then
       echo "Checking versions.json on circuitpython.local to find hostname" ;;
       versions_resp ← send (Request GET "http://circuitpython.local/cp/version.json"
                                     None NoAuth false (Some timeout));
       d ← json_of versions_resp TypeError;
       hostname ← match d !! "hostname" with
                  | Some v => mret v
                  | None => raise KeyError
                  end;
       let host := PyVal.str hostname +:+ ".local" in
       echo ("Using hostname: " +:+ host) ;;
       match device_path with
       | Some p => mret (host, Some (Py.replace "circuitpython.local" host p))
       | None => raise TypeError
       end
     else mret (host, device_path));
  backend ← try_except (backends.init host password timeout)
    (λ e, match e with
          | ValueError msg | UnicodeError msg | RuntimeError msg =>
              Some (echo msg ;; raise (SystemExit 1))
          | _ => None
          end);
  mret (device_path, backend).

(** [ctx.invoked_subcommand in BOARDLESS_COMMANDS or "--help" in sys.argv] *)
Definition stops_early : bool :=
  match invoked_subcommand with
  | Some c => bool_decide (c ∈ shared.BOARDLESS_COMMANDS)
  | None => false
  end || argv_has_help.

Definition main (verbose : bool) (path host password : option string) (timeout : Z)
  : M unit :=
  let password := match password with None => getenv_password | Some _ => password end in
  device_path ← get_device_path host password path;
  let using_webworkflow := bool_decide (is_Some host) in
  echo ("host: " +:+ Py.str_opt host) ;;
  echo ("using webworkflow: " +:+ Py.str_bool using_webworkflow) ;;
  '(device_path, backend) ←
    match host with
    | Some h => '(p, b) ← connect h password device_path timeout; mret (p, Some b)
    | None => mret (device_path, None)
    end;
  (if verbose then echo ("Logging to " +:+ LOGFILE +:+ String "010" "") else mret ()) ;;
  logger_write "### Started Circfile ###" ;;
  (* If a newer version of circfile is available, print a message. *)
  logger_write "Checking for a newer version of circfile" ;;
  match circup_version with
  | Some version =>
      if Py.truthy version then for_each (update_check version) echo else mret ()
  | None => mret ()
  end ;;
  (* stop early if the command is boardless *)
  if stops_early
  then mret ()
  else
    latest_version ← shared.get_latest_release_from_url
      "https://github.com/adafruit/circuitpython/releases/latest";
    present ← match device_path, backend with
              | None, _ => mret false
              | Some _, None => raise KeyError      (* ctx.obj["backend"] *)
              | Some _, Some b => backends.is_device_present b
              end;
    if present : bool
    then echo ("Found device at " +:+ Py.str_opt device_path +:+ ".")
    else
      echo "Could not find a connected CircuitPython device." ;;
      raise (SystemExit 1).

End with_environment.

Section ls.
Context `{urllib : !Urllib, device : !Device, listing : !Listing}.

(** One line of [ls]: size, tab, name, and a slash behind a directory. *)
Definition ls_line (cur_file : entry) : string :=
  pretty (file_size cur_file) +:+ String "009" "" +:+ name cur_file
  +:+ (if directory cur_file then "/" else "").

(** The [ls] command, given the backend stored at start-up. *)
Definition ls_cli (backend : WebBackend) (file : string) : M unit :=
  logger_write "ls" ;;
  let file := if Py.endswith "/" file then file else file +:+ "/" in
  echo ("running: ls " +:+ file) ;;
  files ← backends.list_dir backend file;
  echo ("Size" +:+ String "009" "" +:+ "Name") ;;
  for_each (command_utils.sorted_by_directory_then_alpha files)
           (λ cur_file, echo (ls_line cur_file)).

End ls.

End commands.

(** ** Concrete surroundings for running the model *)

Module Demo.

(** A join that is right for a base ending in [/] and a plain relative
    name; the password is the one written into the base URL. *)
Definition urllib : Urllib :=
  {| urljoin base u _ := base +:+ u; urlparse_password _ := Some "pw" |}.

(** A device that answers the request number [n] (from 0) with status
    [bad] and every other request with 200 and an empty body. *)
Definition device_failing (n : nat) (bad : Z) : Device :=
  {| getaddrinfo _ := Resolved;
     respond tr _ :=
       Answered (Response (if decide (length tr = n) then bad else 200) NotJSON) |}.

(** A device that answers every request with the same response. *)
Definition device_answering (a : answer) : Device :=
  {| getaddrinfo _ := Resolved; respond _ _ := a |}.

Definition tree : node :=
  Dir [("a.py", File []);
       ("sub", Dir [("b.py", File []); ("deep", Dir [("c.py", File [])])]);
       ("d.py", File [])].

(** A disk holding the directory [mod] and the file [code.py]. *)
Definition disk : LocalFS :=
  {| lookup_path p :=
       if String.eqb p "mod" then Some tree
       else if String.eqb p "code.py" then Some (File [])
       else None |}.

Definition self : WebBackend := {| host := "dev.local"; password := "pw"; timeout := 10 |}.

Definition start : world := World [] [] [].

(** A host computer with no password in the environment and no mounted
    board, running the [ls] command. *)
Definition computer : Host :=
  {| getenv_password := None;
     mounted_device := None;
     circup_version := None;
     update_check _ := [];
     invoked_subcommand := Some "ls";
     argv_has_help := false;
     release_head :=
       Some ("https://github.com/adafruit/circuitpython/releases/tag/9.2.0", None);
     LOGFILE := "circfile.log" |}.

(** The same host computer running the [show] command, which needs no
    board. *)
Definition computer_show : Host :=
  {| getenv_password := None;
     mounted_device := None;
     circup_version := None;
     update_check _ := [];
     invoked_subcommand := Some "show";
     argv_has_help := false;
     release_head := None;
     LOGFILE := "circfile.log" |}.

(** A listing answer: two files and a directory. *)
Definition listing : Listing :=
  {| content_repr _ := "b'{...}'";
     json_files _ :=
       Returned [Entry "code.py" 120 false; Entry "lib" 0 true;
                 Entry "boot_out.txt" 98 false] |}.

End Demo.

(** A device whose answers follow a script: the n-th request gets the n-th
    answer whatever it asks, and a failed connection once the script is
    used up. *)
Definition scripted_device (resolves : string → resolution) (answers : list answer)
  : Device :=
  {| getaddrinfo := resolves;
     respond tr _ := default ConnectionFailed (answers !! length tr) |}.

(** The operations of the backend that send write or delete requests. *)
Inductive operation :=
  | Mirror (source : string) (location : option string)
  | Upload (target_file : string) (location_to_paste : option string)
  | Update (module : Module_)
  | Delete (device_path module_path : string).

Definition run_operation `{!Urllib, !Device, !LocalFS}
    (self : WebBackend) (op : operation) : M unit :=
  match op with
  | Mirror source location => backends.install_dir_http self source location
  | Upload target_file location_to_paste =>
      backends.upload_file self target_file location_to_paste
  | Update module => backends.update self module
  | Delete device_path module_path => backends.uninstall self device_path module_path
  end.

(** ** The steps of a directory mirror *)

(** What a request of [install_dir_http] is for: the top-level directory,
    the sub-directory [name] of the directory [root], or the file [name]
    of the directory [root] ([root] as components below the source). *)
Inductive event :=
  | CreateTop
  | CreateDir (root : list string) (name : string)
  | WriteFile (root : list string) (name : string) (content : list Byte.byte).

(** One triple of [os.walk]: the sub-directories, then the files. *)
Definition level_events
    (t : list string * list string * list (string * list Byte.byte)) : list event :=
  ((CreateDir t.1.1 <$> t.1.2) ++ ((λ f, WriteFile t.1.1 f.1 f.2) <$> t.2))%list.

Definition walk_events
    (ts : list (list string * list string * list (string * list Byte.byte)))
  : list event :=
  ts ≫= level_events.

Definition mirror_events `{!LocalFS} (source : string) : list event :=
  CreateTop :: walk_events (os_walk_path source).

(** The directory an event puts its entry into. *)
Definition location (ev : event) : option (list string) :=
  match ev with
  | CreateTop => None
  | CreateDir root _ | WriteFile root _ _ => Some root
  end.

(** The event that creates the directory [root]. *)
Definition parent_event (root : list string) : event :=
  match last root with
  | None => CreateTop
  | Some d => CreateDir (removelast root) d
  end.

(** The request [install_dir_http] sends for an event. *)
Definition request_of `{!Urllib} (self : WebBackend) (target : string) (ev : event)
  : request :=
  let auth := HTTPBasicAuth "" (urlparse_password target) in
  let rel_path root := if String.eqb (relpath root) "." then "" else relpath root in
  match ev with
  | CreateTop => Request PUT target None auth false (Some (timeout self))
  | CreateDir root name =>
      Request PUT
        (backends.with_trailing_slash (backends.path_to_create target (rel_path root) name))
        None auth false (Some (timeout self))
  | WriteFile root name content =>
      Request PUT (backends.path_to_create target (rel_path root) name)
        (Some content) auth false (Some (timeout self))
  end.

(** ** The vocabulary of the statements *)

(** *** Listings *)

(** The slot an entry competes for: its name within its partition. *)
Definition slot_key (e : entry) : string * bool := (name e, directory e).

(** The last entry of [l] in slot [kb], if any. *)
Definition slot_last (kb : string * bool) (l : list entry) : option entry :=
  last (filter (λ e, slot_key e = kb) l).

(** One partition's dictionary, read out by sorted key. *)
Definition picks (m : gmap string entry) : list entry :=
  omap (λ cur_name, m !! cur_name) (Py.sorted (command_utils.keys m)).

Definition slot_map (b : bool) (m : gmap string entry) : Prop :=
  ∀ k e, m !! k = Some e → slot_key e = (k, b).

(** *** Requests and their answers *)

(** The device answered this request with status 409. *)
Definition is_conflict (x : request * answer) : bool :=
  match x.2 with
  | Answered r => status_code r =? 409
  | ConnectionFailed | TimedOut => false
  end.

(** How a run may relate to 409 answers: either none of its requests got
    one and nothing was shown to the user, or exactly its last request got
    one, the not-writable message was shown and the run ended in
    [sys.exit(1)]. *)
Inductive conflict_run {A} (w : world) : outcome A → world → Prop :=
  | run_clean res w' tr :
      trace w' = (trace w ++ tr)%list →
      Forall (λ x, is_conflict x = false) tr →
      display w' = display w →
      conflict_run w res w'
  | run_conflict w' tr x :
      trace w' = (trace w ++ tr ++ [x])%list →
      Forall (λ x, is_conflict x = false) tr →
      is_conflict x = true →
      display w' = (display w ++ [backends.writeable_message])%list →
      conflict_run w (Raised (SystemExit 1)) w'.

Definition stops_on_conflict {A} (m : M A) : Prop :=
  ∀ w, conflict_run w (m w).1 (m w).2.

(** [m] sends the requests [reqs] in order, stopping early only when it
    raises. *)
Definition emits {A} (m : M A) (reqs : list request) : Prop :=
  ∀ w, ∃ tr,
    trace (m w).2 = (trace w ++ tr)%list
    ∧ tr.*1 `prefix_of` reqs
    ∧ (∀ a, (m w).1 = Returned a → tr.*1 = reqs).

(** Every event of [E] finds the creation of its directory among the
    events [seen] before it. *)
Fixpoint guarded (seen E : list event) : Prop :=
  match E with
  | [] => True
  | x :: E' =>
      (∀ q, location x = Some q → parent_event q ∈ seen) ∧ guarded (seen ++ [x]) E'
  end.

(** The request of the presence check, of the free-space query and of the
    first step of a directory update. *)
Definition presence_request (self : WebBackend) : request :=
  Request GET (backends.device_location self +:+ "/cp/version.json") None NoAuth false None.

Definition free_space_request `{!Urllib} (self : WebBackend) : request :=
  Request GET (urljoin (backends.device_location self) "fs/" true) None
    (HTTPBasicAuth "" (Some (password self))) true (Some (timeout self)).

Definition delete_request `{!Urllib} (self : WebBackend) (module : Module_) : request :=
  Request DELETE (path module) None
    (HTTPBasicAuth "" (urlparse_password (path module))) false (Some (timeout self)).

(** An answer that passes the status check. *)
Definition answer_ok (a : answer) : bool :=
  match a with
  | Answered r => negb (status_code r =? 409) && negb (is_error_status (status_code r))
  | ConnectionFailed | TimedOut => false
  end.

(** What the status check makes of the answer to a request: the
    exception it ends the operation with, or [None] when the answer
    passes. *)
Definition failure_of (req : request) (a : answer) : option exn :=
  match a with
  | ConnectionFailed => Some ConnectionError
  | TimedOut => Some ReadTimeout
  | Answered r =>
      if status_code r =? 409 then Some (SystemExit 1)
      else if is_error_status (status_code r)
      then Some (HTTPError (status_code r) (url req))
      else None
  end.

(** A run whose requests all pass the status check, or one that ends at
    its first request that does not, with that request's exception. *)
Inductive checked_run {A} (w : world) : outcome A → world → Prop :=
  | checked_through res w' tr :
      trace w' = (trace w ++ tr)%list →
      Forall (λ x, failure_of x.1 x.2 = None) tr →
      checked_run w res w'
  | checked_stopped w' tr x e :
      trace w' = (trace w ++ tr ++ [x])%list →
      Forall (λ x, failure_of x.1 x.2 = None) tr →
      failure_of x.1 x.2 = Some e →
      checked_run w (Raised e) w'.

Definition stops_at_failure {A} (m : M A) : Prop :=
  ∀ w, checked_run w (m w).1 (m w).2.

(** The entries [tr], sent after the entries [before], carry the answers
    of the device. *)
Fixpoint answered `{!Device} (before tr : list (request * answer)) : Prop :=
  match tr with
  | [] => True
  | x :: tr' => x.2 = respond before x.1 ∧ answered (before ++ [x]) tr'
  end.

(** [m] sends the requests [reqs] one after the other for as long as the
    answers pass the status check: it returns once all of them are sent
    and have passed, and it ends at the first answer that does not pass,
    with the exception of that answer. *)
Definition performs `{!Device} {A} (m : M A) (reqs : list request) : Prop :=
  ∀ w, ∃ tr,
    trace (m w).2 = (trace w ++ tr)%list
    ∧ answered (trace w) tr
    ∧ ((tr.*1 = reqs
        ∧ Forall (λ x, failure_of x.1 x.2 = None) tr
        ∧ ∃ a, (m w).1 = Returned a)
       ∨ (∃ tr0 x e,
            tr = (tr0 ++ [x])%list
            ∧ tr.*1 `prefix_of` reqs
            ∧ Forall (λ x, failure_of x.1 x.2 = None) tr0
            ∧ failure_of x.1 x.2 = Some e
            ∧ (m w).1 = Raised e)).

(** A computation that sends no request to the device and raises
    nothing but [SystemExit(1)]; when it returns, it has passed the
    records [logged] to the logger. *)
Definition sends_nothing {A} (m : M A) (logged : list string) : Prop :=
  ∀ w, trace (m w).2 = trace w
       ∧ (∀ e, (m w).1 = Raised e → e = SystemExit 1)
       ∧ (∀ a, (m w).1 = Returned a → log (m w).2 = (log w ++ logged)%list).

(** *** Two runs side by side *)

(** Two states an onlooker of the display and the log cannot tell apart,
    reached after the same number of requests. *)
Definition same_output (w1 w2 : world) : Prop :=
  display w1 = display w2 ∧ log w1 = log w2 ∧ length (trace w1) = length (trace w2).

(** Two exceptions an onlooker cannot tell apart but for the URL that
    the message of an [HTTPError] names. *)
Definition same_exn (e1 e2 : exn) : Prop :=
  match e1, e2 with
  | HTTPError s1 _, HTTPError s2 _ => s1 = s2
  | HTTPError _ _, _ | _, HTTPError _ _ => False
  | _, _ => e1 = e2
  end.

Definition same_outcome {A} (R : A → A → Prop) (o1 o2 : outcome A) : Prop :=
  match o1, o2 with
  | Returned a1, Returned a2 => R a1 a2
  | Raised e1, Raised e2 => same_exn e1 e2
  | _, _ => False
  end.

(** Two computations that take indistinguishable states to runs related
    by [Q]. *)
Definition agree_with {A} (Q : outcome A * world → outcome A * world → Prop)
    (m1 m2 : M A) : Prop :=
  ∀ w1 w2, same_output w1 w2 → Q (m1 w1) (m2 w2).

(** Two computations that keep such states indistinguishable and end
    alike. *)
Definition agree {A} (R : A → A → Prop) (m1 m2 : M A) : Prop :=
  ∀ w1 w2, same_output w1 w2 →
    same_output (m1 w1).2 (m2 w2).2 ∧ same_outcome R (m1 w1).1 (m2 w2).1.

(** Two operations that differ at most in the device URLs handed to
    them, which hold the password of the device. *)
Definition same_operation (op1 op2 : operation) : Prop :=
  match op1, op2 with
  | Mirror source1 location1, Mirror source2 location2 =>
      source1 = source2 ∧ location1 = location2
  | Upload target_file1 location1, Upload target_file2 location2 =>
      target_file1 = target_file2 ∧ location1 = location2
  | Update module1, Update module2 =>
      file module1 = file module2 ∧ bundle_path module1 = bundle_path module2
  | Delete _ _, Delete _ _ => True
  | _, _ => False
  end.

(** Two runs from one state: they show the same lines, log the same
    records and end alike. *)
Definition alike {A} (r1 r2 : outcome A * world) : Prop :=
  display r1.2 = display r2.2 ∧ log r1.2 = log r2.2 ∧ same_outcome eq r1.1 r2.1.

(** The last line of [main]. *)
Definition found_line (device_path : string) : string :=
  "Found device at " +:+ device_path +:+ ".".

(** Two runs of [main] that are indistinguishable, or that both return
    after showing, on top of what is indistinguishable, the line with the
    device path: [p1] in the one run and [p2] in the other, related by
    [P]. *)
Definition alike_but_found (P : string → string → Prop)
    (r1 r2 : outcome unit * world) : Prop :=
  (same_output r1.2 r2.2 ∧ same_outcome eq r1.1 r2.1)
  ∨ ∃ w1 w2 p1 p2,
      same_output w1 w2 ∧ P p1 p2
      ∧ r1 = (Returned (), World (trace w1) (display w1 ++ [found_line p1]) (log w1))
      ∧ r2 = (Returned (), World (trace w2) (display w2 ++ [found_line p2]) (log w2)).

(** The device path [main] ends up with: for the default host name, the
    name the device reports replaces it. *)
Definition final_path (host host' device_path : string) : string :=
  if String.eqb host "circuitpython.local"
  then Py.replace "circuitpython.local" host' device_path
  else device_path.

(** The device answers by position: what it says to a request depends on
    how many requests came before, not on what they carry. *)
Definition answers_by_position (device : Device) : Prop :=
  ∀ tr1 tr2 req1 req2,
    length tr1 = length tr2 → respond tr1 req1 = respond tr2 req2.

(** * Verification *)

(** ** Listing order *)

Section listing_order.
Import command_utils.

Lemma filter_none {A} (P : A → Prop) `{∀ x, Decision (P x)} (l : list A) :
  (∀ x, x ∈ l → ¬ P x) → filter P l = [].
Proof.
  induction l as [|a l IH]; intros H'; [done|].
  rewrite filter_cons_False by (apply H'; left).
  apply IH. intros x Hx. apply H'. by right.
Qed.

Lemma filter_unique {A B} `{EqDecision B} (f : A → B) (l : list A) (e : A) :
  NoDup (f <$> l) → e ∈ l → filter (λ x, f x = f e) l = [e].
Proof.
  induction l as [|a l IH]; intros Hnd Hin.
  - by apply elem_of_nil in Hin.
  - apply NoDup_cons in Hnd as [Ha Hnd].
    apply elem_of_cons in Hin as [->|Hin].
    + rewrite filter_cons_True by done. f_equal.
      apply filter_none. intros x Hx Hfx.
      apply Ha. rewrite <- Hfx. by apply list_elem_of_fmap_2.
    + rewrite filter_cons_False; [by apply IH|].
      intros Hfa. apply Ha. rewrite Hfa. by apply list_elem_of_fmap_2.
Qed.

Lemma filter_at_most_one_NoDup {A B} `{EqDecision B} (f : A → B) (l : list A) :
  (∀ y, (length (filter (λ x, f x = y) l) ≤ 1)%nat) → NoDup (f <$> l).
Proof.
  induction l as [|a l IH]; intros H; [constructor|].
  rewrite fmap_cons. apply NoDup_cons. split.
  - intros Hin. apply list_elem_of_fmap in Hin as (x & Hfx & Hx).
    specialize (H (f a)). rewrite filter_cons_True in H by done.
    assert (x ∈ filter (λ x, f x = f a) l) as Hx'
      by (apply list_elem_of_filter; split; [by symmetry|done]).
    destruct (filter _ l); [by apply elem_of_nil in Hx'|simpl in H; lia].
  - apply IH. intros y. specialize (H y).
    destruct (decide (f a = y)).
    + rewrite filter_cons_True in H by done. simpl in H. lia.
    + by rewrite filter_cons_False in H.
Qed.

Lemma last_filter_snoc (P : entry → Prop) `{∀ e, Decision (P e)} (l : list entry) x :
  last (filter P (l ++ [x])%list) = if decide (P x) then Some x else last (filter P l).
Proof.
  rewrite filter_app. destruct (decide (P x)).
  - rewrite (filter_cons_True P) by done. rewrite filter_nil. apply last_snoc.
  - rewrite (filter_cons_False P) by done. by rewrite filter_nil, app_nil_r.
Qed.

(** The dictionaries after the loop: each name maps to the last entry of
    its partition that carries it. *)
Lemma partition_lookup l k :
  (foldl file_step (∅, ∅) l).1 !! k = slot_last (k, true) l
  ∧ (foldl file_step (∅, ∅) l).2 !! k = slot_last (k, false) l.
Proof.
  induction l as [|x l IH] using rev_ind; [done|].
  rewrite foldl_app. simpl. unfold slot_last in *.
  rewrite !last_filter_snoc. destruct IH as [IH1 IH2].
  unfold file_step, slot_key. destruct x as [n sz [|]]; simpl.
  - split.
    + destruct (decide (n = k)) as [->|].
      * rewrite lookup_insert_eq. by rewrite decide_True.
      * rewrite lookup_insert_ne by done. rewrite decide_False by congruence. done.
    + rewrite decide_False by congruence. done.
  - split.
    + rewrite decide_False by congruence. done.
    + destruct (decide (n = k)) as [->|].
      * rewrite lookup_insert_eq. by rewrite decide_True.
      * rewrite lookup_insert_ne by done. rewrite decide_False by congruence. done.
Qed.

Lemma slot_last_Some kb l e : slot_last kb l = Some e → e ∈ l ∧ slot_key e = kb.
Proof.
  unfold slot_last. intros H. apply last_Some_elem_of in H.
  by apply list_elem_of_filter in H as [? ?].
Qed.

Lemma slot_map_lookup b m k e :
  slot_map b m → m !! k = Some e → name e = k ∧ directory e = b.
Proof. intros Hm He. specialize (Hm _ _ He). by injection Hm. Qed.

Lemma sorted_keys_NoDup m : NoDup (Py.sorted (keys m)).
Proof.
  unfold Py.sorted. rewrite merge_sort_Permutation. apply NoDup_fst_map_to_list.
Qed.

Lemma elem_of_sorted_keys m k : k ∈ Py.sorted (keys m) ↔ is_Some (m !! k).
Proof.
  unfold Py.sorted. rewrite merge_sort_Permutation. unfold keys.
  rewrite list_elem_of_fmap. split.
  - intros ([k' e] & -> & H). apply elem_of_map_to_list in H. eauto.
  - intros [e H]. exists (k, e). split; [done|]. by apply elem_of_map_to_list.
Qed.

Lemma picks_names b m : slot_map b m → name <$> picks m = Py.sorted (keys m).
Proof.
  intros Hm. unfold picks.
  assert (Forall (λ k, is_Some (m !! k)) (Py.sorted (keys m))) as H
    by (apply Forall_forall; intros k; apply elem_of_sorted_keys).
  induction H as [|k ks [e He] _ IH]; [done|].
  cbn [omap list_omap]. rewrite He. rewrite fmap_cons, IH. f_equal.
  by destruct (slot_map_lookup _ _ _ _ Hm He).
Qed.

Lemma elem_of_picks b m e : slot_map b m → e ∈ picks m ↔ m !! name e = Some e.
Proof.
  intros Hm. unfold picks. rewrite list_elem_of_omap. split.
  - intros (k & _ & Hk). by destruct (slot_map_lookup _ _ _ _ Hm Hk) as [<- _].
  - intros H. exists (name e). split; [|done]. apply elem_of_sorted_keys. eauto.
Qed.

Lemma picks_directory b m : slot_map b m → Forall (λ e, directory e = b) (picks m).
Proof.
  intros Hm. apply Forall_forall. intros e He.
  apply (elem_of_picks b) in He; [|done]. by destruct (slot_map_lookup _ _ _ _ Hm He).
Qed.

Lemma picks_NoDup b m : slot_map b m → NoDup (name <$> picks m).
Proof. intros Hm. rewrite (picks_names b) by done. apply sorted_keys_NoDup. Qed.

Lemma picks_filter b m kb :
  slot_map b m →
  filter (λ e, slot_key e = kb) (picks m)
  = if decide (kb.2 = b) then option_list (m !! kb.1) else [].
Proof.
  intros Hm. destruct kb as [k b']. simpl. destruct (decide (b' = b)) as [->|Hb].
  - destruct (m !! k) as [e|] eqn:He; simpl.
    + destruct (slot_map_lookup _ _ _ _ Hm He) as [Hn Hd].
      assert (e ∈ picks m) as Hin by (apply (elem_of_picks b); [done|by rewrite Hn]).
      rewrite <- (filter_unique slot_key (picks m) e); [| |done].
      * unfold slot_key. by rewrite Hn, Hd.
      * apply (NoDup_fmap_1 fst). rewrite <- list_fmap_compose.
        by apply (picks_NoDup b).
    + apply filter_none. intros e Hin [= Hn Hd].
      apply (elem_of_picks b) in Hin; [|done]. congruence.
  - apply filter_none. intros e Hin [= Hn Hd].
    apply (elem_of_picks b) in Hin; [|done].
    destruct (slot_map_lookup _ _ _ _ Hm Hin) as [_ ?]. congruence.
Qed.

Lemma dirs_slot_map l : slot_map true (foldl file_step (∅, ∅) l).1.
Proof.
  intros k e H. rewrite (proj1 (partition_lookup l k)) in H.
  by apply slot_last_Some in H as [_ ?].
Qed.

Lemma files_slot_map l : slot_map false (foldl file_step (∅, ∅) l).2.
Proof.
  intros k e H. rewrite (proj2 (partition_lookup l k)) in H.
  by apply slot_last_Some in H as [_ ?].
Qed.

Lemma sorted_unfold l :
  sorted_by_directory_then_alpha l
  = picks (foldl file_step (∅, ∅) l).1 ++ picks (foldl file_step (∅, ∅) l).2.
Proof. unfold sorted_by_directory_then_alpha. by destruct (foldl _ _ l). Qed.

(** Every slot keeps exactly its last entry. *)
Lemma sorted_filter_slot l kb :
  filter (λ e, slot_key e = kb) (sorted_by_directory_then_alpha l)
  = option_list (slot_last kb l).
Proof.
  rewrite sorted_unfold, filter_app.
  rewrite (picks_filter true) by apply dirs_slot_map.
  rewrite (picks_filter false) by apply files_slot_map.
  destruct kb as [k [|]]; cbn [fst snd]; repeat case_decide; try done.
  - by rewrite app_nil_r, (proj1 (partition_lookup l k)).
  - by rewrite (proj2 (partition_lookup l k)).
Qed.

Lemma sorted_slots_NoDup l : NoDup (slot_key <$> sorted_by_directory_then_alpha l).
Proof.
  apply filter_at_most_one_NoDup. intros kb. rewrite sorted_filter_slot.
  destruct (slot_last kb l); simpl; lia.
Qed.

Lemma elem_of_sorted l e :
  e ∈ sorted_by_directory_then_alpha l ↔ slot_last (slot_key e) l = Some e.
Proof.
  pose proof (sorted_filter_slot l (slot_key e)) as H. split.
  - intros Hin.
    assert (e ∈ filter (λ x, slot_key x = slot_key e) (sorted_by_directory_then_alpha l))
      as Hf by (by apply list_elem_of_filter).
    rewrite H in Hf. destruct (slot_last _ l); simpl in Hf.
    + by apply list_elem_of_singleton in Hf as ->.
    + by apply elem_of_nil in Hf.
  - intros Hl. rewrite Hl in H. simpl in H.
    assert (e ∈ filter (λ x, slot_key x = slot_key e) (sorted_by_directory_then_alpha l))
      as Hf by (rewrite H; apply list_elem_of_singleton; done).
    by apply list_elem_of_filter in Hf as [_ ?].
Qed.

Lemma sorted_Permutation l :
  NoDup (slot_key <$> l) → sorted_by_directory_then_alpha l ≡ₚ l.
Proof.
  intros Hnd. apply NoDup_Permutation.
  - apply (NoDup_fmap_1 slot_key), sorted_slots_NoDup.
  - by apply (NoDup_fmap_1 slot_key).
  - intros e. rewrite elem_of_sorted. unfold slot_last. split.
    + intros H. apply last_Some_elem_of in H. by apply list_elem_of_filter in H as [_ ?].
    + intros H. by rewrite (filter_unique slot_key l e).
Qed.

Lemma filter_all {A} (P : A → Prop) `{∀ x, Decision (P x)} (l : list A) :
  Forall P l → filter P l = l.
Proof.
  induction 1 as [|a l Ha _ IH]; [done|].
  by rewrite filter_cons_True, IH.
Qed.

Lemma sorted_length l :
  (length (sorted_by_directory_then_alpha l) ≤ length l)%nat.
Proof.
  apply submseteq_length, NoDup_submseteq.
  - apply (NoDup_fmap_1 slot_key), sorted_slots_NoDup.
  - intros e He. apply elem_of_sorted in He. by apply slot_last_Some in He as [? _].
Qed.

(** C4. For a listing whose names are pairwise distinct, the result is the
    directory entries in ascending order of name, compared byte by byte
    (so upper case sorts before lower case), followed by the file entries
    in ascending order of name; the listing [b] (file), [A] (directory),
    [a] (file) comes out in the name order [A], [a], [b]. *)
Theorem sorted_by_directory_then_alpha_distinct_names :
  (∀ l : list entry,
     NoDup (name <$> l) →
     ∃ dirs files : list entry,
       sorted_by_directory_then_alpha l = (dirs ++ files)%list
       ∧ dirs ≡ₚ filter (λ e, directory e = true) l
       ∧ files ≡ₚ filter (λ e, directory e = false) l
       ∧ StronglySorted String.le (name <$> dirs)
       ∧ StronglySorted String.le (name <$> files))
  ∧ name <$> sorted_by_directory_then_alpha
               [Entry "b" 11 false; Entry "A" 0 true; Entry "a" 22 false]
    = ["A"; "a"; "b"].
Proof.
  split; [|by vm_compute].
  intros l Hnd.
  pose proof (dirs_slot_map l) as Hd. pose proof (files_slot_map l) as Hf.
  pose proof (picks_directory _ _ Hd) as Hdd.
  pose proof (picks_directory _ _ Hf) as Hfd.
  assert (sorted_by_directory_then_alpha l ≡ₚ l) as Hp.
  { apply sorted_Permutation, (NoDup_fmap_1 fst).
    by rewrite <- list_fmap_compose. }
  rewrite sorted_unfold in Hp.
  exists (picks (foldl file_step (∅, ∅) l).1), (picks (foldl file_step (∅, ∅) l).2).
  split; [apply sorted_unfold|].
  assert (∀ m, StronglySorted String.le (Py.sorted (keys m))) as Hs
    by (intros m; apply StronglySorted_merge_sort; apply _).
  rewrite (picks_names true), (picks_names false) by done.
  split; [|split; [|by split]].
  - revert Hp Hdd Hfd. generalize (picks (foldl file_step (∅, ∅) l).1) as D.
    generalize (picks (foldl file_step (∅, ∅) l).2) as F. intros F D Hp Hdd Hfd.
    rewrite <- Hp, filter_app, filter_all by done.
    rewrite (filter_none _ F), app_nil_r; [done|].
    intros e He. rewrite Forall_forall in Hfd. rewrite (Hfd e He). done.
  - revert Hp Hdd Hfd. generalize (picks (foldl file_step (∅, ∅) l).1) as D.
    generalize (picks (foldl file_step (∅, ∅) l).2) as F. intros F D Hp Hdd Hfd.
    rewrite <- Hp, filter_app, (filter_all _ F) by done.
    rewrite filter_none; [done|].
    intros e He. rewrite Forall_forall in Hdd. rewrite (Hdd e He). done.
Qed.

Lemma sorted_by_directory_then_alpha_distinct_names_witness :
  ∃ dirs files : list entry,
    sorted_by_directory_then_alpha
      [Entry "boot.py" 120 false; Entry "lib" 0 true; Entry "Code.py" 64 false;
       Entry "Docs" 0 true]
    = (dirs ++ files)%list
    ∧ dirs ≡ₚ filter (λ e, directory e = true)
        [Entry "boot.py" 120 false; Entry "lib" 0 true; Entry "Code.py" 64 false;
         Entry "Docs" 0 true]
    ∧ files ≡ₚ filter (λ e, directory e = false)
        [Entry "boot.py" 120 false; Entry "lib" 0 true; Entry "Code.py" 64 false;
         Entry "Docs" 0 true]
    ∧ StronglySorted String.le (name <$> dirs)
    ∧ StronglySorted String.le (name <$> files).
Proof.
  apply (proj1 sorted_by_directory_then_alpha_distinct_names).
  apply (bool_decide_unpack _). vm_compute. exact I.
Defined.

(** C10. Whatever the listing, the result holds, for every name and
    partition, exactly the last entry of the input with that name in that
    partition and nothing else. It is therefore never longer than the
    input and can be shorter, and it is a rearrangement of the input
    exactly when no name occurs twice within one partition. *)
Theorem sorted_by_directory_then_alpha_keeps_last :
  (∀ (l : list entry) (kb : string * bool),
     filter (λ e, slot_key e = kb) (sorted_by_directory_then_alpha l)
     = option_list (slot_last kb l))
  ∧ (∀ l : list entry, (length (sorted_by_directory_then_alpha l) ≤ length l)%nat)
  ∧ (∃ l : list entry, (length (sorted_by_directory_then_alpha l) < length l)%nat)
  ∧ (∀ l : list entry,
       sorted_by_directory_then_alpha l ≡ₚ l ↔ NoDup (slot_key <$> l)).
Proof.
  split; [exact sorted_filter_slot|]. split; [exact sorted_length|]. split.
  - exists [Entry "a" 1 false; Entry "a" 2 false]. vm_compute. lia.
  - intros l. split; [|apply sorted_Permutation].
    intros Hp. rewrite <- Hp. apply sorted_slots_NoDup.
Qed.

End listing_order.

(** ** Runs of the monad *)

Lemma bind_run {A B} (m : M A) (f : A → M B) (w : world) :
  (m ≫= f) w = match m w with
               | (Returned a, w') => f a w'
               | (Raised e, w') => (Raised e, w')
               end.
Proof. reflexivity. Qed.

Lemma bind_assoc_run {A B C} (m : M A) (f : A → M B) (g : B → M C) (w : world) :
  (m ≫= λ a, f a ≫= g) w = ((m ≫= f) ≫= g) w.
Proof. rewrite !bind_run. by destruct (m w) as [[a|e] w']. Qed.

Lemma for_each_cons {A} (x : A) (l : list A) (body : A → M unit) (w : world) :
  for_each (x :: l) body w = (body x ;; for_each l body) w.
Proof. reflexivity. Qed.

Lemma logger_write_run (msg : string) (w : world) :
  logger_write msg w = (Returned (), World (trace w) (display w) (log w ++ [msg])).
Proof. reflexivity. Qed.

Lemma echo_run (msg : string) (w : world) :
  echo msg w = (Returned (), World (trace w) (display w ++ [msg]) (log w)).
Proof. reflexivity. Qed.

Lemma for_each_echo {A} (f : A → string) (l : list A) (w : world) :
  for_each l (λ x, echo (f x)) w
  = (Returned (), World (trace w) (display w ++ (f <$> l)) (log w)).
Proof.
  revert w. induction l as [|x l IH]; intros w.
  - cbn. rewrite app_nil_r. by destruct w.
  - rewrite for_each_cons, bind_run, echo_run, IH.
    cbn [trace display log]. by rewrite <- app_assoc.
Qed.

(** ** A 409 answer ends the operation *)

Section conflict.
Context `{urllib : !Urllib, device : !Device, disk : !LocalFS}.
Import backends.

Lemma soc_pure {A} (m : M A) :
  (∀ w, (m w).2 = w) → stops_on_conflict m.
Proof.
  intros H w. rewrite H. apply run_clean with (tr := []); [|constructor|done].
  by rewrite app_nil_r.
Qed.

Lemma soc_ret {A} (a : A) : stops_on_conflict (mret a).
Proof. by apply soc_pure. Qed.

Lemma soc_raise {A} (e : exn) : stops_on_conflict (@raise A e).
Proof. by apply soc_pure. Qed.

Lemma soc_lift {A} (o : outcome A) : stops_on_conflict (lift o).
Proof. by apply soc_pure. Qed.

Lemma soc_bind {A B} (m : M A) (f : A → M B) :
  stops_on_conflict m → (∀ a, stops_on_conflict (f a)) → stops_on_conflict (m ≫= f).
Proof.
  intros Hm Hf w. specialize (Hm w). rewrite bind_run.
  destruct (m w) as [[a|e] w1]; simpl in *; last first.
  { inversion Hm; subst; [by eapply run_clean|by eapply run_conflict]. }
  inversion Hm as [? ? tr1 Ht1 Hc1 Hd1|]; subst.
  specialize (Hf a w1). destruct (f a w1) as [res w2]; simpl in *.
  inversion Hf as [? ? tr2 Ht2 Hc2 Hd2|? tr2 x Ht2 Hc2 Hx Hd2]; subst.
  - apply run_clean with (tr := (tr1 ++ tr2)%list).
    + by rewrite Ht2, Ht1, app_assoc.
    + by apply Forall_app.
    + congruence.
  - apply run_conflict with (tr := (tr1 ++ tr2)%list) (x := x).
    + by rewrite Ht2, Ht1, !app_assoc.
    + by apply Forall_app.
    + done.
    + congruence.
Qed.

Lemma soc_ext {A} (m m' : M A) :
  (∀ w, m' w = m w) → stops_on_conflict m → stops_on_conflict m'.
Proof. intros E Hm w. rewrite E. apply Hm. Qed.

(** [r ← m; f r ;; k], read as [(r ← m; f r) ;; k]. *)
Lemma soc_bind_checked {A B C} (m : M A) (f : A → M B) (k : M C) :
  stops_on_conflict (r ← m; f r) → stops_on_conflict k →
  stops_on_conflict (r ← m; f r ;; k).
Proof.
  intros Hm Hk. apply (soc_ext ((m ≫= f) ≫= λ _, k)).
  - intros w. apply bind_assoc_run.
  - by apply soc_bind.
Qed.

Lemma soc_for_each {A} (l : list A) (body : A → M unit) :
  (∀ x, stops_on_conflict (body x)) → stops_on_conflict (for_each l body).
Proof.
  intros Hb. induction l as [|x l IH]; [apply soc_ret|].
  apply soc_bind; [apply Hb|]. intros _. apply IH.
Qed.

(** One request followed by the status check. *)
Lemma soc_send_checked (req : request) (u : string) :
  stops_on_conflict (r ← send req; check_status u r).
Proof.
  intros w. rewrite bind_run. unfold send.
  destruct (respond (trace w) req) as [| |r] eqn:Ha.
  - apply run_clean with (tr := [(req, ConnectionFailed)]); [done| |done].
    by repeat constructor.
  - apply run_clean with (tr := [(req, TimedOut)]); [done| |done].
    by repeat constructor.
  - unfold check_status. rewrite bind_run.
    destruct (status_code r =? 409) eqn:Hs.
    + apply run_conflict with (tr := []) (x := (req, Answered r)); try done.
    + unfold raise_for_status.
      destruct (is_error_status (status_code r));
        (apply run_clean with (tr := [(req, Answered r)]); [done| |done]);
        by repeat constructor.
Qed.

Lemma soc_install_file_http self source location :
  stops_on_conflict (install_file_http self source location).
Proof.
  unfold install_file_http.
  apply soc_bind; [apply soc_lift|]. intros file_name.
  apply soc_bind.
  - unfold read_file. destruct (lookup_path source) as [[]|]; by apply soc_pure.
  - intros content. apply soc_send_checked.
Qed.

Lemma soc_install_dir_http self source location :
  stops_on_conflict (install_dir_http self source location).
Proof.
  unfold install_dir_http.
  apply soc_bind; [apply soc_lift|]. intros target.
  apply soc_bind_checked; [apply soc_send_checked|].
  apply soc_for_each. intros [[root dirs] files].
  apply soc_bind.
  - apply soc_for_each. intros name. apply soc_send_checked.
  - intros _. apply soc_for_each. intros [name content]. apply soc_send_checked.
Qed.

Lemma soc_create_library_directory self device_path library_path :
  stops_on_conflict (_create_library_directory self device_path library_path).
Proof. apply soc_send_checked. Qed.

Lemma soc_upload_file self target_file location_to_paste :
  stops_on_conflict (upload_file self target_file location_to_paste).
Proof.
  unfold upload_file. destruct (isdir target_file).
  - destruct location_to_paste; [|apply soc_raise].
    apply soc_bind; [apply soc_create_library_directory|].
    intros _. apply soc_install_dir_http.
  - apply soc_install_file_http.
Qed.

Lemma soc_uninstall self device_path module_path :
  stops_on_conflict (uninstall self device_path module_path).
Proof. apply soc_send_checked. Qed.

Lemma soc_update self module : stops_on_conflict (update self module).
Proof.
  unfold update, _update_http. destruct (file module).
  - apply soc_install_file_http.
  - apply soc_bind_checked; [apply soc_send_checked|].
    apply soc_install_dir_http.
Qed.

Lemma soc_run_operation self op : stops_on_conflict (run_operation self op).
Proof.
  destruct op; simpl.
  - apply soc_install_dir_http.
  - apply soc_upload_file.
  - apply soc_update.
  - apply soc_uninstall.
Qed.

(** C2. In a directory mirror, an upload, an update or a delete: when one
    of the requests of the operation is answered with status 409, the
    operation ends in [sys.exit(1)] after showing the message that tells
    the user to remount the storage as writable, whatever number of
    requests succeeded before; the request answered 409 is the last one
    the operation sends. *)
Theorem conflict_aborts_operation self op w tr req resp :
  trace (run_operation self op w).2 = (trace w ++ tr)%list →
  (req, Answered resp) ∈ tr →
  status_code resp = 409 →
  (run_operation self op w).1 = Raised (SystemExit 1)
  ∧ display (run_operation self op w).2 = (display w ++ [writeable_message])%list
  ∧ Py.contains "Remount storage as writable" writeable_message = true
  ∧ ∃ tr0, tr = (tr0 ++ [(req, Answered resp)])%list
           ∧ Forall (λ x, is_conflict x = false) tr0.
Proof.
  intros Ht Hin Hs.
  assert (is_conflict (req, Answered resp) = true) as Hc
    by (unfold is_conflict; simpl; by apply Z.eqb_eq).
  pose proof (soc_run_operation self op w) as Hrun.
  destruct (run_operation self op w) as [res w']; simpl in *.
  inversion Hrun as [? ? tr1 Ht1 Hc1 Hd1|? tr1 x Ht1 Hc1 Hx Hd1]; subst.
  - rewrite Ht in Ht1. apply app_inv_head in Ht1 as ->.
    rewrite Forall_forall in Hc1. specialize (Hc1 _ Hin). congruence.
  - rewrite Ht in Ht1. apply app_inv_head in Ht1 as ->.
    split; [done|]. split; [done|]. split; [by vm_compute|].
    exists tr1. split; [|done].
    apply elem_of_app in Hin as [Hin|Hin].
    + rewrite Forall_forall in Hc1. specialize (Hc1 _ Hin). congruence.
    + by apply list_elem_of_singleton in Hin as <-.
Qed.

End conflict.

(** The device refuses the third request of a mirror: the first file of
    the top level, after the top directory and one sub-directory exist. *)
Lemma conflict_aborts_operation_witness :
  let run := @run_operation Demo.urllib (Demo.device_failing 2 409) Demo.disk
               Demo.self (Mirror "mod" None) Demo.start in
  run.1 = Raised (SystemExit 1)
  ∧ display run.2 = [backends.writeable_message]
  ∧ Py.contains "Remount storage as writable" backends.writeable_message = true
  ∧ ∃ tr0, trace run.2
           = (tr0 ++ [(Request PUT "http://:pw@dev.local/fs/lib/mod/a.py" (Some [])
                         (HTTPBasicAuth "" (Some "pw")) false (Some 10),
                       Answered (Response 409 NotJSON))])%list
           ∧ Forall (λ x, is_conflict x = false) tr0.
Proof.
  apply (@conflict_aborts_operation Demo.urllib (Demo.device_failing 2 409) Demo.disk
           Demo.self (Mirror "mod" None) Demo.start).
  - reflexivity.
  - vm_compute. do 2 right. left.
  - reflexivity.
Defined.

(** ** The order of a directory mirror *)

Section mirror.
Context `{urllib : !Urllib, device : !Device, disk : !LocalFS}.
Import backends.

Lemma emits_pure {A} (m : M A) : (∀ w, (m w).2 = w) → emits m [].
Proof.
  intros Hm w. exists []. rewrite Hm, app_nil_r. split; [done|].
  split; [apply prefix_nil|done].
Qed.

Lemma emits_ext {A} (m m' : M A) reqs :
  (∀ w, m' w = m w) → emits m reqs → emits m' reqs.
Proof. intros E Hm w. rewrite E. apply Hm. Qed.

Lemma emits_bind {A B} (m : M A) (f : A → M B) r1 r2 :
  emits m r1 → (∀ a, emits (f a) r2) → emits (m ≫= f) (r1 ++ r2).
Proof.
  intros Hm Hf w. rewrite bind_run.
  destruct (Hm w) as (tr1 & Ht1 & Hp1 & Hr1).
  destruct (m w) as [[a|e] w1]; simpl in *.
  - destruct (Hf a w1) as (tr2 & Ht2 & Hp2 & Hr2).
    exists (tr1 ++ tr2)%list. rewrite Ht2, Ht1, app_assoc, fmap_app.
    rewrite (Hr1 a eq_refl). split; [done|]. split.
    + by apply prefix_app.
    + intros b Hb. by rewrite (Hr2 b Hb).
  - exists tr1. split; [done|]. split; [|done].
    by apply prefix_app_r.
Qed.

Lemma emits_bind_checked {A B C} (m : M A) (f : A → M B) (k : M C) r1 r2 :
  emits (r ← m; f r) r1 → emits k r2 → emits (r ← m; f r ;; k) (r1 ++ r2).
Proof.
  intros Hm Hk. apply (emits_ext ((m ≫= f) ≫= λ _, k)).
  - intros w. apply bind_assoc_run.
  - by apply emits_bind.
Qed.

Lemma emits_for_each {A} (l : list A) (body : A → M unit) (g : A → list request) :
  (∀ x, emits (body x) (g x)) → emits (for_each l body) (l ≫= g).
Proof.
  intros Hb. induction l as [|x l IH]; [by apply emits_pure|].
  rewrite bind_cons.
  apply (emits_bind (body x) (λ _, for_each l body) (g x) (l ≫= g)); [apply Hb|done].
Qed.

Lemma emits_for_each_one {A} (l : list A) (body : A → M unit) (g : A → request) :
  (∀ x, emits (body x) [g x]) → emits (for_each l body) (g <$> l).
Proof.
  intros Hb. induction l as [|x l IH]; [by apply emits_pure|].
  rewrite fmap_cons.
  apply (emits_bind (body x) (λ _, for_each l body) [g x] (g <$> l)); [apply Hb|done].
Qed.

Lemma emits_send_checked (req : request) (u : string) :
  emits (r ← send req; check_status u r) [req].
Proof.
  intros w. rewrite bind_run. unfold send.
  exists [(req, respond (trace w) req)].
  destruct (respond (trace w) req) as [| |r]; [done|done|].
  unfold check_status. rewrite bind_run.
  destruct (status_code r =? 409); [done|].
  unfold raise_for_status. by destruct (is_error_status (status_code r)).
Qed.

Lemma fmap_list_bind {A B C} (f : B → C) (g : A → list B) (l : list A) :
  f <$> (l ≫= g) = l ≫= λ x, f <$> g x.
Proof.
  induction l as [|x l IH]; [done|].
  by rewrite !bind_cons, fmap_app, IH.
Qed.

Lemma emits_install_dir_http self source location target :
  install_dir_target self source location = Returned target →
  emits (install_dir_http self source location)
        (request_of self target <$> mirror_events source).
Proof.
  intros Htarget. unfold install_dir_http. rewrite Htarget.
  apply (emits_ext
    (r ← session_put self target None (HTTPBasicAuth "" (urlparse_password target));
     check_status target r ;;
     for_each (os_walk_path source) (λ '(root, dirs, files),
       let rel_path := relpath root in
       let rel_path := if String.eqb rel_path "." then "" else rel_path in
       for_each dirs (λ name,
         r ← session_put self
               (with_trailing_slash (path_to_create target rel_path name)) None
               (HTTPBasicAuth "" (urlparse_password target));
         check_status (with_trailing_slash (path_to_create target rel_path name)) r) ;;
       for_each files (λ '(name, content),
         r ← session_put self (path_to_create target rel_path name) (Some content)
               (HTTPBasicAuth "" (urlparse_password target));
         check_status (path_to_create target rel_path name) r)))); [done|].
  unfold mirror_events. rewrite fmap_cons.
  apply (emits_bind_checked _ _ _ [request_of self target CreateTop]).
  { apply emits_send_checked. }
  unfold walk_events. rewrite fmap_list_bind.
  apply emits_for_each. intros [[root dirs] files].
  unfold level_events, compose. simpl. rewrite fmap_app, <- !list_fmap_compose.
  apply emits_bind.
  - apply emits_for_each_one. intros name. apply emits_send_checked.
  - intros _. apply emits_for_each_one. intros [name content]. apply emits_send_checked.
Qed.

(** *** Every request is sent, up to the first failure *)

Lemma answered_app (before tr1 tr2 : list (request * answer)) :
  answered before tr1 → answered (before ++ tr1) tr2 → answered before (tr1 ++ tr2).
Proof.
  revert before. induction tr1 as [|x tr1 IH]; intros before H1 H2.
  - by rewrite app_nil_r in H2.
  - destruct H1 as [Hx H1]. split; [done|].
    apply IH; [done|]. by rewrite <- app_assoc.
Qed.

Lemma answered_last (before tr : list (request * answer)) (x : request * answer) :
  answered before (tr ++ [x]) → x.2 = respond (before ++ tr) x.1.
Proof.
  revert before. induction tr as [|y tr IH]; intros before.
  - intros [Hx _]. by rewrite app_nil_r.
  - intros [_ Htr]. apply IH in Htr. by rewrite <- app_assoc in Htr.
Qed.

Lemma performs_pure {A} (m : M A) : (∀ w, ∃ a, m w = (Returned a, w)) → performs m [].
Proof.
  intros Hm w. destruct (Hm w) as [a ->]. exists []. rewrite app_nil_r.
  split; [done|]. split; [done|]. left. split; [done|]. split; [constructor|by exists a].
Qed.

Lemma performs_ext {A} (m m' : M A) reqs :
  (∀ w, m' w = m w) → performs m reqs → performs m' reqs.
Proof. intros E Hm w. rewrite E. apply Hm. Qed.

Lemma performs_bind {A B} (m : M A) (f : A → M B) r1 r2 :
  performs m r1 → (∀ a, performs (f a) r2) → performs (m ≫= f) (r1 ++ r2).
Proof.
  intros Hm Hf w. rewrite bind_run.
  destruct (Hm w) as (tr1 & Ht1 & Ha1 & Hcase).
  destruct (m w) as [[a|e] w1]; simpl in *.
  - destruct Hcase as [(Hr1 & Hp1 & _)|(? & ? & ? & _ & _ & _ & _ & [=])].
    destruct (Hf a w1) as (tr2 & Ht2 & Ha2 & Hcase2).
    exists (tr1 ++ tr2)%list. rewrite Ht2, Ht1, app_assoc. split; [done|].
    rewrite Ht1 in Ha2. split; [by apply answered_app|].
    destruct Hcase2 as [(Hr2 & Hp2 & Hret)|(tr0 & x & e & -> & Hpre & Hp2 & Hx & Hret)].
    + left. rewrite fmap_app, Hr1, Hr2. split; [done|]. split; [by apply Forall_app|done].
    + right. exists (tr1 ++ tr0)%list, x, e. rewrite app_assoc. split; [done|].
      split; [|split; [by apply Forall_app|done]].
      rewrite <- app_assoc, fmap_app, Hr1. by apply prefix_app.
  - destruct Hcase as [(_ & _ & ? & [=])|(tr0 & x & e' & -> & Hpre & Hp & Hx & Hret)].
    exists (tr0 ++ [x])%list. split; [done|]. split; [done|].
    injection Hret as ->.
    right. exists tr0, x, e'. split; [done|]. split; [by apply prefix_app_r|done].
Qed.

Lemma performs_bind_checked {A B C} (m : M A) (f : A → M B) (k : M C) r1 r2 :
  performs (r ← m; f r) r1 → performs k r2 → performs (r ← m; f r ;; k) (r1 ++ r2).
Proof.
  intros Hm Hk. apply (performs_ext ((m ≫= f) ≫= λ _, k)).
  - intros w. apply bind_assoc_run.
  - by apply performs_bind.
Qed.

Lemma performs_for_each {A} (l : list A) (body : A → M unit) (g : A → list request) :
  (∀ x, performs (body x) (g x)) → performs (for_each l body) (l ≫= g).
Proof.
  intros Hb. induction l as [|x l IH]; [apply performs_pure; by eexists|].
  rewrite bind_cons.
  apply (performs_bind (body x) (λ _, for_each l body) (g x) (l ≫= g)); [apply Hb|done].
Qed.

Lemma performs_for_each_one {A} (l : list A) (body : A → M unit) (g : A → request) :
  (∀ x, performs (body x) [g x]) → performs (for_each l body) (g <$> l).
Proof.
  intros Hb. induction l as [|x l IH]; [apply performs_pure; by eexists|].
  rewrite fmap_cons.
  apply (performs_bind (body x) (λ _, for_each l body) [g x] (g <$> l)); [apply Hb|done].
Qed.

(** One request followed by the status check. *)
Lemma performs_send_checked (req : request) :
  performs (r ← send req; check_status (url req) r) [req].
Proof.
  intros w. rewrite bind_run. unfold send.
  exists [(req, respond (trace w) req)].
  assert (∀ e, failure_of req (respond (trace w) req) = Some e →
            ∃ tr0 x e0,
              [(req, respond (trace w) req)] = (tr0 ++ [x])%list
              ∧ [(req, respond (trace w) req)].*1 `prefix_of` [req]
              ∧ Forall (λ x, failure_of x.1 x.2 = None) tr0
              ∧ failure_of x.1 x.2 = Some e0 ∧ @Raised unit e = Raised e0) as Hstop.
  { intros e He. exists [], (req, respond (trace w) req), e.
    split; [done|]. split; [done|]. split; [constructor|]. by split. }
  destruct (respond (trace w) req) as [| |r] eqn:Ha; cbv beta iota.
  - split; [done|]. split; [done|]. right. by apply Hstop.
  - split; [done|]. split; [done|]. right. by apply Hstop.
  - unfold check_status. rewrite bind_run. cbn [failure_of] in Hstop.
    destruct (status_code r =? 409) eqn:Hs.
    { split; [done|]. split; [done|]. right. by apply Hstop. }
    cbn [mret M_ret]. unfold raise_for_status.
    destruct (is_error_status (status_code r)) eqn:He.
    { split; [done|]. split; [done|]. right. by apply Hstop. }
    split; [done|]. split; [done|].
    left. split; [done|]. split; [|by exists ()].
    repeat constructor. cbn [fst snd failure_of]. by rewrite Hs, He.
Qed.

Lemma performs_install_dir_http self source location target :
  install_dir_target self source location = Returned target →
  performs (install_dir_http self source location)
           (request_of self target <$> mirror_events source).
Proof.
  intros Htarget. unfold install_dir_http. rewrite Htarget.
  apply (performs_ext
    (r ← session_put self target None (HTTPBasicAuth "" (urlparse_password target));
     check_status target r ;;
     for_each (os_walk_path source) (λ '(root, dirs, files),
       let rel_path := relpath root in
       let rel_path := if String.eqb rel_path "." then "" else rel_path in
       for_each dirs (λ name,
         r ← session_put self
               (with_trailing_slash (path_to_create target rel_path name)) None
               (HTTPBasicAuth "" (urlparse_password target));
         check_status (with_trailing_slash (path_to_create target rel_path name)) r) ;;
       for_each files (λ '(name, content),
         r ← session_put self (path_to_create target rel_path name) (Some content)
               (HTTPBasicAuth "" (urlparse_password target));
         check_status (path_to_create target rel_path name) r)))); [done|].
  unfold mirror_events. rewrite fmap_cons.
  apply (performs_bind_checked _ _ _ [request_of self target CreateTop]).
  { apply (performs_send_checked (request_of self target CreateTop)). }
  unfold walk_events. rewrite fmap_list_bind.
  apply performs_for_each. intros [[root dirs] files].
  unfold level_events, compose. simpl. rewrite fmap_app, <- !list_fmap_compose.
  apply performs_bind.
  - apply performs_for_each_one. intros name.
    apply (performs_send_checked (request_of self target (CreateDir root name))).
  - intros _. apply performs_for_each_one. intros [name content].
    apply (performs_send_checked (request_of self target (WriteFile root name content))).
Qed.

(** *** The shape of the event sequence *)

Lemma node_nested_ind (P : node → Prop) :
  (∀ c, P (File c)) →
  (∀ es, Forall (λ e, P e.2) es → P (Dir es)) →
  ∀ n, P n.
Proof.
  intros HF HD. fix IH 1. intros [c|es]; [apply HF|].
  apply HD. induction es as [|e es IHes]; constructor; [apply IH|apply IHes].
Qed.

Lemma list_bind_bind {A B C} (f : A → list B) (g : B → list C) (l : list A) :
  (l ≫= f) ≫= g = l ≫= λ x, f x ≫= g.
Proof.
  induction l as [|x l IH]; [done|].
  by rewrite !bind_cons, bind_app, IH.
Qed.

(** One directory of the walk: its sub-directories are created, then its
    files are written, then the walk descends into the entries in turn. *)
Lemma walk_events_dir (root : list string) (es : list (string * node)) :
  walk_events (os_walk root (Dir es))
  = ((CreateDir root <$> subdirs es)
     ++ ((λ f, WriteFile root f.1 f.2) <$> nondirs es)
     ++ (es ≫= λ e, walk_events (os_walk (root ++ [e.1]) e.2)))%list.
Proof.
  unfold walk_events. cbn [os_walk]. rewrite bind_cons.
  unfold level_events at 1. cbn [fst snd]. rewrite <- app_assoc. do 2 f_equal.
  etransitivity; [|apply list_bind_bind]. by f_equal.
Qed.

Lemma parent_event_snoc (r : list string) (d : string) :
  parent_event (r ++ [d]) = CreateDir r d.
Proof. unfold parent_event. by rewrite last_snoc, removelast_last. Qed.

Lemma guarded_mono (seen seen' E : list event) :
  (∀ y, y ∈ seen → y ∈ seen') → guarded seen E → guarded seen' E.
Proof.
  revert seen seen'. induction E as [|x E IH]; intros seen seen' Hsub; [done|].
  intros [Hx HE]. split; [by eauto|].
  apply (IH (seen ++ [x])%list); [|done].
  intros y [Hy|Hy]%elem_of_app; apply elem_of_app; [left; by apply Hsub|by right].
Qed.

Lemma guarded_app (seen E1 E2 : list event) :
  guarded seen E1 → guarded (seen ++ E1) E2 → guarded seen (E1 ++ E2).
Proof.
  revert seen. induction E1 as [|x E1 IH]; intros seen H1 H2.
  - by rewrite app_nil_r in H2.
  - destruct H1 as [Hx H1]. split; [done|].
    apply IH; [done|]. by rewrite <- app_assoc.
Qed.

Lemma guarded_split (seen E l1 l2 : list event) (x : event) (q : list string) :
  guarded seen E → E = (l1 ++ x :: l2)%list → location x = Some q →
  parent_event q ∈ (seen ++ l1)%list.
Proof.
  revert seen E. induction l1 as [|y l1 IH]; intros seen E HE -> Hq.
  - destruct HE as [Hx _]. rewrite app_nil_r. by apply Hx.
  - destruct HE as [_ HE]. rewrite cons_middle, app_assoc.
    by apply (IH _ _ HE eq_refl).
Qed.

Lemma guarded_same_dir (root : list string) (seen E : list event) :
  Forall (λ x, location x = Some root) E → parent_event root ∈ seen → guarded seen E.
Proof.
  intros HE. revert seen. induction HE as [|x E Hx _ IH]; intros seen Hin; [done|].
  split.
  - intros q Hq. congruence.
  - apply IH, elem_of_app. by left.
Qed.

Lemma elem_of_subdirs (es : list (string * node)) (d : string) (sub : list (string * node)) :
  (d, Dir sub) ∈ es → d ∈ subdirs es.
Proof.
  intros Hin. unfold subdirs. apply list_elem_of_omap. by exists (d, Dir sub).
Qed.

Lemma guarded_descent (root : list string) (es : list (string * node)) :
  Forall (λ e, ∀ root seen, parent_event root ∈ seen →
               guarded seen (walk_events (os_walk root e.2))) es →
  ∀ seen, (∀ d, d ∈ subdirs es → CreateDir root d ∈ seen) →
          guarded seen (es ≫= λ e, walk_events (os_walk (root ++ [e.1]) e.2)).
Proof.
  induction 1 as [|[d sub] es He _ IH]; intros seen Hsub; [done|].
  rewrite bind_cons. apply guarded_app.
  - destruct sub as [c|sub]; [done|].
    apply He. rewrite parent_event_snoc. apply Hsub.
    apply (elem_of_subdirs _ _ sub). by left.
  - apply IH. intros d' Hd'. apply elem_of_app. left. apply Hsub.
    unfold subdirs in *. rewrite list_elem_of_omap in *.
    destruct Hd' as (e & He' & Hd'). exists e. split; [by right|done].
Qed.

Lemma guarded_walk (n : node) :
  ∀ root seen, parent_event root ∈ seen → guarded seen (walk_events (os_walk root n)).
Proof.
  induction n as [c|es IHes] using node_nested_ind; intros root seen Hroot; [done|].
  rewrite walk_events_dir.
  apply guarded_app; [|apply guarded_app].
  - apply (guarded_same_dir root); [|done].
    apply Forall_fmap, Forall_forall. by intros.
  - apply (guarded_same_dir root).
    + apply Forall_fmap, Forall_forall. by intros.
    + apply elem_of_app. by left.
  - apply guarded_descent; [done|].
    intros d Hd. apply elem_of_app. left. apply elem_of_app. right.
    by apply list_elem_of_fmap_2.
Qed.

Lemma guarded_mirror_events (source : string) : guarded [] (mirror_events source).
Proof.
  unfold mirror_events. split; [done|]. unfold os_walk_path.
  destruct (lookup_path source) as [n|]; [|done].
  apply guarded_walk. unfold parent_event. simpl. by left.
Qed.

(** C1. A directory mirror sends, in this order, the creation of the top
    directory and then, for each directory of the source taken top-down,
    one empty-body request per sub-directory, one write per file, and only
    then the descent into the sub-directories. Each request is sent once
    the answer to the one before it has passed the status check: the
    mirror returns when all of them are sent and have passed, and it ends
    at the first answer that does not pass, with the exception of that
    answer; so at least the first request is sent. Each file is written,
    and each sub-directory created, after the request that creates the
    directory holding it. *)
Theorem mirror_requests_in_order self source location target w :
  install_dir_target self source location = Returned target →
  let run := install_dir_http self source location w in
  let events := mirror_events source in
  (∃ tr, trace run.2 = (trace w ++ tr)%list
         ∧ answered (trace w) tr
         ∧ tr ≠ []
         ∧ tr.*1 `prefix_of` (request_of self target <$> events)
         ∧ ((tr.*1 = request_of self target <$> events
             ∧ Forall (λ x, failure_of x.1 x.2 = None) tr
             ∧ run.1 = Returned ())
            ∨ (∃ tr0 x e,
                 tr = (tr0 ++ [x])%list
                 ∧ Forall (λ x, failure_of x.1 x.2 = None) tr0
                 ∧ failure_of x.1 x.2 = Some e
                 ∧ run.1 = Raised e))
         ∧ (run.1 = Returned () → tr.*1 = request_of self target <$> events))
  ∧ (∀ root es,
       walk_events (os_walk root (Dir es))
       = ((CreateDir root <$> subdirs es)
          ++ ((λ f, WriteFile root f.1 f.2) <$> nondirs es)
          ++ (es ≫= λ e, walk_events (os_walk (root ++ [e.1]) e.2)))%list)
  ∧ (∀ ev, data (request_of self target ev) = None
           ↔ ∀ root name content, ev ≠ WriteFile root name content)
  ∧ (∀ l1 l2 name content,
       events = (l1 ++ WriteFile [] name content :: l2)%list → CreateTop ∈ l1)
  ∧ (∀ l1 l2 r d name content,
       events = (l1 ++ WriteFile (r ++ [d]) name content :: l2)%list →
       CreateDir r d ∈ l1)
  ∧ (∀ l1 l2 r d name,
       events = (l1 ++ CreateDir (r ++ [d]) name :: l2)%list → CreateDir r d ∈ l1).
Proof.
  intros Htarget run events.
  pose proof (guarded_mirror_events source) as Hg.
  split; [|split; [|split; [|split; [|split]]]].
  - destruct (performs_install_dir_http self source location target Htarget w)
      as (tr & Ht & Ha & Hcase).
    exists tr. split; [done|]. split; [done|]. subst run events.
    destruct Hcase as [(Hr & Hp & [[] Hret])|(tr0 & x & e & -> & Hpre & Hp & Hx & Hret)].
    + split; [intros ->; by rewrite fmap_nil in Hr|].
      split; [by rewrite Hr|]. split; [by left|done].
    + split; [by destruct tr0|]. split; [done|]. split.
      * right. by exists tr0, x, e.
      * intros Hret'. rewrite Hret in Hret'. discriminate.
  - apply walk_events_dir.
  - intros [|root name|root name content]; simpl; split; try done.
    intros Hne. by destruct (Hne root name content).
  - intros l1 l2 name content He.
    by apply (guarded_split [] _ l1 l2 _ [] Hg He).
  - intros l1 l2 r d name content He. rewrite <- parent_event_snoc.
    by apply (guarded_split [] _ l1 l2 _ (r ++ [d])%list Hg He).
  - intros l1 l2 r d name He. rewrite <- parent_event_snoc.
    by apply (guarded_split [] _ l1 l2 _ (r ++ [d])%list Hg He).
Qed.

End mirror.

(** The event order for the directory of [Demo.disk]. *)
Example mirror_events_demo :
  @mirror_events Demo.disk "mod"
  = [CreateTop;
     CreateDir [] "sub"; WriteFile [] "a.py" []; WriteFile [] "d.py" [];
     CreateDir ["sub"] "deep"; WriteFile ["sub"] "b.py" [];
     WriteFile ["sub"; "deep"] "c.py" []].
Proof. reflexivity. Qed.

(** The mirror of the directory of [Demo.disk] to a device that accepts
    every request: all seven requests are sent, in this order. *)
Lemma mirror_requests_in_order_witness :
  let device := Demo.device_answering (Answered (Response 200 NotJSON)) in
  let run := @backends.install_dir_http Demo.urllib device Demo.disk
               Demo.self "mod" None Demo.start in
  let put target body :=
    Request PUT target body (HTTPBasicAuth "" (Some "pw")) false (Some 10) in
  run.1 = Returned ()
  ∧ (trace run.2).*1
    = [put "http://:pw@dev.local/fs/lib/mod/" None;
       put "http://:pw@dev.local/fs/lib/mod/sub/" None;
       put "http://:pw@dev.local/fs/lib/mod/a.py" (Some []);
       put "http://:pw@dev.local/fs/lib/mod/d.py" (Some []);
       put "http://:pw@dev.local/fs/lib/mod/sub/deep/" None;
       put "http://:pw@dev.local/fs/lib/mod/sub/b.py" (Some []);
       put "http://:pw@dev.local/fs/lib/mod/sub/deep/c.py" (Some [])].
Proof.
  intros device run put.
  destruct (@mirror_requests_in_order Demo.urllib device Demo.disk
              Demo.self "mod" None "http://:pw@dev.local/fs/lib/mod/" Demo.start eq_refl)
    as [(tr & Ht & Ha & _ & _ & Hcase & _) _].
  destruct Hcase as [(Hr & _ & Hret)|(tr0 & x & e & -> & _ & Hx & _)].
  - split; [exact Hret|]. unfold run. rewrite Ht. cbn [trace Demo.start app].
    rewrite Hr. reflexivity.
  - exfalso. apply (@answered_last device) in Ha. rewrite Ha in Hx. discriminate.
Defined.

(** ** Target paths *)

Section targets.
Context `{urllib : !Urllib, device : !Device, disk : !LocalFS}.
Import backends.

Lemma drop_last_length (s : string) :
  String.length (Py.drop_last s) = Nat.pred (String.length s).
Proof.
  induction s as [|c s IH]; [done|].
  destruct s as [|c' s']; [done|].
  change (Py.drop_last (String c (String c' s')))
    with (String c (Py.drop_last (String c' s'))).
  cbn [String.length]. rewrite IH. done.
Qed.

(** The test [path[:-1] != "/"] looks at everything but the last
    character: any path of three characters or more gets a separator
    appended, whether it ends in one or not. *)
Lemma with_trailing_slash_appends (path : string) :
  (2 < String.length path)%nat → with_trailing_slash path = path +:+ "/".
Proof.
  intros Hlen. unfold with_trailing_slash.
  destruct (String.eqb_spec (Py.drop_last path) "/") as [E|]; [|done].
  pose proof (drop_last_length path) as Hl. rewrite E in Hl. simpl in Hl. lia.
Qed.

(** A file upload never looks at the destination. *)
Lemma upload_file_of_file self target_file location_to_paste :
  isdir target_file = false →
  upload_file self target_file location_to_paste
  = install_file_http self target_file None.
Proof. intros Hd. unfold upload_file. by rewrite Hd. Qed.

End targets.

(** C3. Run on a directory target that already ends in the separator, the
    trailing-separator step appends a second one; the target of the
    source directory [/], whose last component is empty, ends in two
    separators. *)
Theorem trailing_separator_duplicated :
  backends.with_trailing_slash "http://:pw@dev.local/fs/lib/mod/"
  = "http://:pw@dev.local/fs/lib/mod//"
  ∧ backends.with_trailing_slash
      (backends.with_trailing_slash "http://:pw@dev.local/fs/lib/mod")
    ≠ backends.with_trailing_slash "http://:pw@dev.local/fs/lib/mod"
  ∧ backends.install_dir_target Demo.self "/" None
    = Returned "http://:pw@dev.local/fs/lib//"
  ∧ (trace (@backends.install_dir_http Demo.urllib
              (Demo.device_answering (Answered (Response 200 NotJSON))) Demo.disk
              Demo.self "/" None Demo.start).2).*1
    = [Request PUT "http://:pw@dev.local/fs/lib//" None
         (HTTPBasicAuth "" (Some "pw")) false (Some 10)].
Proof. repeat split; try reflexivity. by vm_compute. Qed.

(** C8. Uploading the file [code.py] with the destination [sub/] writes
    to [fs/lib/code.py], the library default, not to [fs/sub/code.py];
    [install_file_http] itself, handed the destination, would write
    there. *)
Theorem upload_file_ignores_destination :
  (trace (@backends.upload_file Demo.urllib
            (Demo.device_answering (Answered (Response 200 NotJSON))) Demo.disk
            Demo.self "code.py" (Some "sub/") Demo.start).2).*1
  = [Request PUT "http://:pw@dev.local/fs/lib/code.py" (Some [])
       (HTTPBasicAuth "" (Some "pw")) false (Some 10)]
  ∧ (trace (@backends.install_file_http
              (Demo.device_answering (Answered (Response 200 NotJSON))) Demo.disk
              Demo.self "code.py" (Some "sub/") Demo.start).2).*1
    = [Request PUT "http://:pw@dev.local/fs/sub/code.py" (Some [])
         (HTTPBasicAuth "" (Some "pw")) false (Some 10)].
Proof. split; reflexivity. Qed.

(** ** Presence check and free space *)

Section probes.
Context `{urllib : !Urllib, device : !Device, disk : !LocalFS}.
Import backends.

(** C5, as the code has it. The presence check returns [False] when the
    connection fails and, for an answer whose status is no error and
    whose body is a JSON object, [False] when [web_api_version] is absent,
    null or an integer below 4 (logging why) and [True] when it is an
    integer of at least 4. An answer with an error status (400 to 599)
    does not give [False]: the [HTTPError] of [raise_for_status] leaves
    the check. *)
Theorem is_device_present_cases self w :
  let run := is_device_present self w in
  (respond (trace w) (presence_request self) = ConnectionFailed →
     run.1 = Returned false)
  ∧ (∀ r d,
       respond (trace w) (presence_request self) = Answered r →
       is_error_status (status_code r) = false →
       json r = JSONObject d →
       (PyVal.is_none (d !! "web_api_version") = true →
          run.1 = Returned false ∧ ∃ msg, log run.2 = (log w ++ [msg])%list)
       ∧ (∀ v, d !! "web_api_version" = Some (JInt v) → v < 4 →
            run.1 = Returned false ∧ ∃ msg, log run.2 = (log w ++ [msg])%list)
       ∧ (∀ v, d !! "web_api_version" = Some (JInt v) → 4 ≤ v →
            run.1 = Returned true))
  ∧ (∀ r,
       respond (trace w) (presence_request self) = Answered r →
       is_error_status (status_code r) = true →
       run.1 = Raised (HTTPError (status_code r)
                         (device_location self +:+ "/cp/version.json"))).
Proof.
  intros run. subst run. unfold is_device_present, try_except. cbv zeta.
  rewrite bind_run. unfold send. fold (presence_request self).
  split; [|split].
  - by intros ->.
  - intros r d -> Hs Hj. rewrite bind_run. unfold raise_for_status. rewrite Hs.
    cbn [mret M_ret]. rewrite bind_run. unfold json_of. rewrite Hj. cbn [mret M_ret].
    split; [|split].
    + intros Hn. destruct (d !! "web_api_version") as [[| | |]|]; try done;
        (split; [done|by eexists]).
    + intros v -> Hv. rewrite bind_run. unfold lift, PyVal.lt_int.
      apply Z.ltb_lt in Hv. rewrite Hv. split; [done|by eexists].
    + intros v -> Hv. rewrite bind_run. unfold lift, PyVal.lt_int.
      apply Z.ltb_ge in Hv. by rewrite Hv.
  - intros r -> Hs. rewrite bind_run. unfold raise_for_status. by rewrite Hs.
Qed.

(** C6. For an answer to the free-space query whose status is no error
    and whose body is a JSON object: with integers [free] and [block_size]
    and [writable] true the result is their product; when [free] or
    [block_size] or [writable] is missing, or [writable] is false, nothing
    is returned: one error is logged and shown, and the process exits
    with status 1. *)
Theorem get_free_space_cases self w r d :
  respond (trace w) (free_space_request self) = Answered r →
  is_error_status (status_code r) = false →
  json r = JSONObject d →
  let run := get_free_space self w in
  (∀ free block_size,
     d !! "free" = Some (JInt free) →
     d !! "block_size" = Some (JInt block_size) →
     d !! "writable" = Some (JBool true) →
     run.1 = Returned (JInt (free * block_size)))
  ∧ (PyVal.is_none (d !! "free") = true
     ∨ PyVal.is_none (d !! "block_size") = true
     ∨ PyVal.is_none (d !! "writable") = true
     ∨ d !! "writable" = Some (JBool false) →
     run.1 = Raised (SystemExit 1)
     ∧ ∃ msg, log run.2 = (log w ++ [msg])%list
              ∧ display run.2 = (display w ++ [msg])%list).
Proof.
  intros Ha Hs Hj run. subst run. unfold get_free_space.
  rewrite bind_run. unfold send. fold (free_space_request self). rewrite Ha.
  rewrite bind_run. unfold raise_for_status. rewrite Hs. cbn [mret M_ret].
  rewrite bind_run. unfold json_of. rewrite Hj. cbn [mret M_ret].
  split.
  - intros free block_size -> -> ->. done.
  - intros Hmiss.
    destruct (d !! "free") as [[| | |]|];
      destruct (d !! "block_size") as [[| | |]|];
      destruct (d !! "writable") as [[|[|]| |]|];
      try (split; [reflexivity|eexists; split; reflexivity]);
      destruct Hmiss as [Hm|[Hm|[Hm|Hm]]]; discriminate.
Qed.

End probes.

Lemma is_device_present_cases_witness :
  (@backends.is_device_present
     (Demo.device_answering ConnectionFailed) Demo.self Demo.start).1 = Returned false
  ∧ (@backends.is_device_present
       (Demo.device_answering
          (Answered (Response 200 (JSONObject {[ "web_api_version" := JInt 3 ]}))))
       Demo.self Demo.start).1 = Returned false
  ∧ (@backends.is_device_present
       (Demo.device_answering
          (Answered (Response 200 (JSONObject {[ "web_api_version" := JInt 4 ]}))))
       Demo.self Demo.start).1 = Returned true
  ∧ (@backends.is_device_present
       (Demo.device_answering (Answered (Response 503 NotJSON)))
       Demo.self Demo.start).1
    = Raised (HTTPError 503 "http://:pw@dev.local/cp/version.json").
Proof.
  split; [|split; [|split]].
  - destruct (@is_device_present_cases (Demo.device_answering ConnectionFailed)
                Demo.self Demo.start) as (Hfail & _ & _).
    apply Hfail. reflexivity.
  - destruct (@is_device_present_cases
                (Demo.device_answering
                   (Answered (Response 200 (JSONObject {[ "web_api_version" := JInt 3 ]}))))
                Demo.self Demo.start) as (_ & Hok & _).
    destruct (Hok _ _ eq_refl eq_refl eq_refl) as (_ & Hlow & _).
    apply (Hlow 3); [reflexivity|lia].
  - destruct (@is_device_present_cases
                (Demo.device_answering
                   (Answered (Response 200 (JSONObject {[ "web_api_version" := JInt 4 ]}))))
                Demo.self Demo.start) as (_ & Hok & _).
    destruct (Hok _ _ eq_refl eq_refl eq_refl) as (_ & _ & Hhigh).
    apply (Hhigh 4); [reflexivity|lia].
  - destruct (@is_device_present_cases
                (Demo.device_answering (Answered (Response 503 NotJSON)))
                Demo.self Demo.start) as (_ & _ & Herr).
    apply (Herr _ eq_refl eq_refl).
Defined.

(** The device answers the presence check with status 404. *)
Lemma is_device_present_raises :
  let run := @backends.is_device_present
               (Demo.device_answering (Answered (Response 404 NotJSON)))
               Demo.self Demo.start in
  run.1 = Raised (HTTPError 404 "http://:pw@dev.local/cp/version.json")
  ∧ run.1 ≠ Returned false.
Proof. split; [reflexivity|discriminate]. Qed.

Lemma get_free_space_cases_witness :
  (@backends.get_free_space Demo.urllib
     (Demo.device_answering
        (Answered (Response 200 (JSONObject {[ "free" := JInt 100;
                                          "block_size" := JInt 512;
                                          "writable" := JBool true ]}))))
     Demo.self Demo.start).1 = Returned (JInt 51200)
  ∧ (@backends.get_free_space Demo.urllib
       (Demo.device_answering
          (Answered (Response 200 (JSONObject {[ "free" := JInt 100;
                                            "block_size" := JInt 512;
                                            "writable" := JBool false ]}))))
       Demo.self Demo.start).1 = Raised (SystemExit 1).
Proof.
  split.
  - destruct (@get_free_space_cases Demo.urllib
                (Demo.device_answering
                   (Answered (Response 200 (JSONObject {[ "free" := JInt 100;
                                                     "block_size" := JInt 512;
                                                     "writable" := JBool true ]}))))
                Demo.self Demo.start _ _ eq_refl eq_refl eq_refl) as (Hfree & _).
    apply (Hfree 100 512); reflexivity.
  - destruct (@get_free_space_cases Demo.urllib
                (Demo.device_answering
                   (Answered (Response 200 (JSONObject {[ "free" := JInt 100;
                                                     "block_size" := JInt 512;
                                                     "writable" := JBool false ]}))))
                Demo.self Demo.start _ _ eq_refl eq_refl eq_refl) as (_ & Hexit).
    apply Hexit. do 3 right. reflexivity.
Defined.

(** ** Update *)

Section update.
Context `{urllib : !Urllib, device : !Device, disk : !LocalFS}.
Import backends.

Local Ltac no_request :=
  exists []; simpl; rewrite app_nil_r; split; [done|split; [constructor|simpl; lia]].

Lemma install_file_http_trace self source location w :
  ∃ tr, trace (install_file_http self source location w).2 = (trace w ++ tr)%list
        ∧ Forall (λ x, meth x.1 = PUT) tr
        ∧ (length tr ≤ 1)%nat.
Proof.
  unfold install_file_http. rewrite bind_run. unfold lift.
  destruct (source_name source) as [file_name|e]; [|no_request].
  rewrite bind_run. unfold read_file.
  destruct (lookup_path source) as [[content|es]|]; try no_request.
  cbn [mret M_ret]. rewrite bind_run. unfold session_put, send.
  exists [(Request PUT
             match location with
             | None => device_location self +:+ "/" +:+ LIB_DIR_PATH +:+ file_name
             | Some location =>
                 device_location self +:+ "/" +:+ FS_PATH +:+ location +:+ file_name
             end (Some content) (HTTPBasicAuth "" (Some (password self))) false
             (Some (timeout self)),
           respond (trace w)
             (Request PUT
                match location with
                | None => device_location self +:+ "/" +:+ LIB_DIR_PATH +:+ file_name
                | Some location =>
                    device_location self +:+ "/" +:+ FS_PATH +:+ location +:+ file_name
                end (Some content) (HTTPBasicAuth "" (Some (password self))) false
                (Some (timeout self))))].
  split; [|split; [by repeat constructor|done]].
  destruct (respond _ _) as [| |r]; [done|done|].
  unfold check_status. rewrite bind_run.
  destruct (status_code r =? 409); [done|].
  unfold raise_for_status. by destruct (is_error_status (status_code r)).
Qed.

(** C7, as the code has it. A module that is a single file is updated by
    the file upload alone: at most one request, a write, and no delete.
    A module that is a directory is updated in two steps: the delete
    request for its path on the device comes first; when the device
    accepts it, the directory upload from the bundle follows, and when it
    does not, the update ends there. Nothing ties the two steps together:
    with a device that accepts the delete and refuses the next request,
    the update ends with the directory deleted and nothing uploaded. *)
Theorem update_steps self module w :
  let run := update self module w in
  (file module = true →
     run = install_file_http self (bundle_path module) None w
     ∧ ∃ tr, trace run.2 = (trace w ++ tr)%list
             ∧ Forall (λ x, meth x.1 = PUT) tr ∧ (length tr ≤ 1)%nat)
  ∧ (file module = false →
       let del := delete_request self module in
       let a := respond (trace w) del in
       let w1 := World (trace w ++ [(del, a)]) (display w) (log w) in
       (answer_ok a = true →
          run = install_dir_http self (bundle_path module) None w1)
       ∧ (answer_ok a = false →
            trace run.2 = trace w1 ∧ ∃ e, run.1 = Raised e))
  ∧ (let module := {| file := false; bundle_path := "mod";
                      path := "http://:pw@dev.local/fs/lib/mod/" |} in
     let run := @update Demo.urllib (Demo.device_failing 1 500) Demo.disk
                  Demo.self module Demo.start in
     run.1 = Raised (HTTPError 500 "http://:pw@dev.local/fs/lib/mod/")
     ∧ trace run.2
       = [(Request DELETE "http://:pw@dev.local/fs/lib/mod/" None
             (HTTPBasicAuth "" (Some "pw")) false (Some 10),
           Answered (Response 200 NotJSON));
          (Request PUT "http://:pw@dev.local/fs/lib/mod/" None
             (HTTPBasicAuth "" (Some "pw")) false (Some 10),
           Answered (Response 500 NotJSON))]).
Proof.
  intros run. subst run. unfold update, _update_http.
  split; [|split].
  - intros ->. split; [done|]. apply install_file_http_trace.
  - intros ->. cbv zeta. fold (delete_request self module).
    rewrite bind_run. unfold session_delete, send. fold (delete_request self module).
    destruct (respond (trace w) (delete_request self module)) as [| |r]; simpl.
    + split; [done|]. intros _. split; [done|by eexists].
    + split; [done|]. intros _. split; [done|by eexists].
    + rewrite bind_run. unfold check_status. rewrite bind_run.
      destruct (status_code r =? 409); simpl.
      * split; [done|]. intros _. split; [done|by eexists].
      * unfold raise_for_status. destruct (is_error_status (status_code r)); simpl.
        -- split; [done|]. intros _. split; [done|by eexists].
        -- split; [done|]. intros [=].
  - split; reflexivity.
Qed.

End update.

Lemma update_steps_witness :
  let module := {| file := false; bundle_path := "mod";
                   path := "http://:pw@dev.local/fs/lib/mod/" |} in
  let script := Demo.device_answering (Answered (Response 200 NotJSON)) in
  @backends.update Demo.urllib script Demo.disk Demo.self module Demo.start
  = @backends.install_dir_http Demo.urllib script Demo.disk Demo.self "mod" None
      (World [(@delete_request Demo.urllib Demo.self module,
               Answered (Response 200 NotJSON))] [] [])
  ∧ (let module := {| file := true; bundle_path := "code.py";
                      path := "http://:pw@dev.local/fs/lib/code.py" |} in
     @backends.update Demo.urllib script Demo.disk Demo.self module Demo.start
     = @backends.install_file_http script Demo.disk Demo.self "code.py" None Demo.start).
Proof.
  split.
  - destruct (@update_steps Demo.urllib
                (Demo.device_answering (Answered (Response 200 NotJSON))) Demo.disk
                Demo.self
                {| file := false; bundle_path := "mod";
                   path := "http://:pw@dev.local/fs/lib/mod/" |} Demo.start)
      as (_ & Hdir & _).
    destruct (Hdir eq_refl) as (Hok & _). apply Hok. reflexivity.
  - destruct (@update_steps Demo.urllib
                (Demo.device_answering (Answered (Response 200 NotJSON))) Demo.disk
                Demo.self
                {| file := true; bundle_path := "code.py";
                   path := "http://:pw@dev.local/fs/lib/code.py" |} Demo.start)
      as (Hfile & _ & _).
    apply (Hfile eq_refl).
Defined.

(** Updating a module that is a single file: one write, no delete. *)
Lemma update_of_file_sends_no_delete :
  let module := {| file := true; bundle_path := "code.py";
                   path := "http://:pw@dev.local/fs/lib/code.py" |} in
  let run := @backends.update Demo.urllib
               (Demo.device_answering (Answered (Response 200 NotJSON))) Demo.disk
               Demo.self module Demo.start in
  run.1 = Returned ()
  ∧ (trace run.2).*1
    = [Request PUT "http://:pw@dev.local/fs/lib/code.py" (Some [])
         (HTTPBasicAuth "" (Some "pw")) false (Some 10)]
  ∧ ¬ ∃ x, x ∈ trace run.2 ∧ meth x.1 = DELETE.
Proof.
  split; [reflexivity|]. split; [reflexivity|].
  intros (x & Hx & Hm). vm_compute in Hx.
  apply list_elem_of_singleton in Hx. subst x. discriminate.
Qed.

(** ** The credential in what is shown and logged *)

Section credential.
Context `{urllib : !Urllib, device : !Device, disk : !LocalFS, listing : !Listing,
          computer : !Host}.
Hypothesis by_position : answers_by_position device.
Import backends command_utils commands.

Lemma same_exn_refl (e : exn) : same_exn e e.
Proof. by destruct e. Qed.

Lemma same_output_refl (w : world) : same_output w w.
Proof. done. Qed.

Lemma agree_ret {A} (R : A → A → Prop) a1 a2 : R a1 a2 → agree R (mret a1) (mret a2).
Proof. by intros HR w1 w2 Hw. Qed.

Lemma agree_raise {A} (R : A → A → Prop) e1 e2 :
  same_exn e1 e2 → agree R (raise e1) (raise e2).
Proof. by intros He w1 w2 Hw. Qed.

Lemma agree_lift {A} (R : A → A → Prop) (o1 o2 : outcome A) :
  same_outcome R o1 o2 → agree R (lift o1) (lift o2).
Proof. by intros Ho w1 w2 Hw. Qed.

Lemma agree_bind {A B} (R : A → A → Prop) (S : B → B → Prop) m1 m2 f1 f2 :
  agree R m1 m2 → (∀ a1 a2, R a1 a2 → agree S (f1 a1) (f2 a2)) →
  agree S (m1 ≫= f1) (m2 ≫= f2).
Proof.
  intros Hm Hf w1 w2 Hw. rewrite !bind_run.
  destruct (Hm w1 w2 Hw) as [Hw' Ho].
  destruct (m1 w1) as [[a1|e1] w1'], (m2 w2) as [[a2|e2] w2']; simpl in *; try done.
  by apply Hf.
Qed.

Lemma agree_echo msg : agree eq (echo msg) (echo msg).
Proof.
  intros w1 w2 (Hd & Hl & Ht). split; [|done].
  split; [|done]. simpl. by rewrite Hd.
Qed.

Lemma agree_logger_write msg : agree eq (logger_write msg) (logger_write msg).
Proof.
  intros w1 w2 (Hd & Hl & Ht). split; [|done].
  split; [done|]. split; [|done]. simpl. by rewrite Hl.
Qed.

(** Two requests sent at the same point get the same answer, whatever
    they carry. *)
Lemma agree_send req1 req2 : agree eq (send req1) (send req2).
Proof.
  intros w1 w2 (Hd & Hl & Ht). unfold send.
  rewrite (by_position (trace w1) (trace w2) req1 req2 Ht).
  destruct (respond (trace w2) req2) as [| |r];
    (split; [|done]); unfold same_output; cbn [fst snd trace display log];
    rewrite !length_app, Ht; done.
Qed.

Lemma agree_for_each {A} (l : list A) (body1 body2 : A → M unit) :
  (∀ x, agree eq (body1 x) (body2 x)) → agree eq (for_each l body1) (for_each l body2).
Proof.
  intros Hb. induction l as [|x l IH]; [by apply agree_ret|].
  apply (agree_bind eq); [apply Hb|]. by intros.
Qed.

(** A handler looks at the class of the exception only. *)
Lemma agree_try_except {A} (R : A → A → Prop) b1 b2 (h : exn → option (M A)) :
  agree R b1 b2 →
  (∀ e1 e2, same_exn e1 e2 →
     match h e1, h e2 with
     | Some k1, Some k2 => agree R k1 k2
     | None, None => True
     | _, _ => False
     end) →
  agree R (try_except b1 h) (try_except b2 h).
Proof.
  intros Hb Hh w1 w2 Hw. unfold try_except.
  destruct (Hb w1 w2 Hw) as [Hw' Ho].
  destruct (b1 w1) as [[a1|e1] w1'], (b2 w2) as [[a2|e2] w2']; simpl in *; try done.
  specialize (Hh e1 e2 Ho). destruct (h e1), (h e2); try done. by apply Hh.
Qed.

Lemma agree_raise_for_status u1 u2 r :
  agree eq (raise_for_status u1 r) (raise_for_status u2 r).
Proof.
  unfold raise_for_status.
  destruct (is_error_status _); [by apply agree_raise|by apply agree_ret].
Qed.

Lemma agree_check_status u1 u2 r : agree eq (check_status u1 r) (check_status u2 r).
Proof.
  unfold check_status. apply (agree_bind eq); [|intros _ _ _; apply agree_raise_for_status].
  destruct (status_code r =? 409); [|by apply agree_ret].
  unfold _writeable_error. apply (agree_bind eq); [apply agree_echo|].
  intros _ _ _. by apply agree_raise.
Qed.

Lemma agree_send_checked req1 req2 u1 u2 :
  agree eq (r ← send req1; check_status u1 r) (r ← send req2; check_status u2 r).
Proof.
  apply (agree_bind eq); [apply agree_send|]. intros r ? <-. apply agree_check_status.
Qed.

Lemma agree_json_of r e : agree eq (json_of r e) (json_of r e).
Proof.
  unfold json_of. destruct (json r); [|by apply agree_ret|];
    apply agree_raise, same_exn_refl.
Qed.

Lemma agree_complain {A} (msg1 msg2 : string) (k : M A) :
  agree eq k k → agree eq (logger_write msg1 ;; echo msg2 ;; k) (logger_write msg1 ;; echo msg2 ;; k).
Proof.
  intros Hk. apply (agree_bind eq); [apply agree_logger_write|]. intros _ _ _.
  apply (agree_bind eq); [apply agree_echo|]. by intros _ _ _.
Qed.

(** *** The operations of the backend *)

Lemma agree_install_file_http self1 self2 source location :
  agree eq (install_file_http self1 source location)
           (install_file_http self2 source location).
Proof.
  unfold install_file_http.
  apply (agree_bind eq).
  { apply agree_lift. destruct (source_name source); [done|apply same_exn_refl]. }
  intros file_name ? <-.
  apply (agree_bind eq).
  { unfold read_file. destruct (lookup_path source) as [[c|es]|];
      [by apply agree_ret|by apply agree_raise..]. }
  intros content ? <-. apply agree_send_checked.
Qed.

Lemma agree_install_dir_http self1 self2 source location :
  agree eq (install_dir_http self1 source location)
           (install_dir_http self2 source location).
Proof.
  unfold install_dir_http.
  apply (agree_bind (λ _ _, True)).
  { apply agree_lift. unfold install_dir_target.
    destruct (source_name source); [done|apply same_exn_refl]. }
  intros target1 target2 _.
  apply (agree_bind eq); [apply agree_send|]. intros r ? <-.
  apply (agree_bind eq); [apply agree_check_status|]. intros _ _ _.
  apply agree_for_each. intros [[root dirs] files].
  apply (agree_bind eq).
  - apply agree_for_each. intros name. apply agree_send_checked.
  - intros _ _ _. apply agree_for_each. intros [name content]. apply agree_send_checked.
Qed.

Lemma agree_run_operation self1 self2 op1 op2 :
  same_operation op1 op2 →
  agree eq (run_operation self1 op1) (run_operation self2 op2).
Proof.
  destruct op1 as [source location|target_file location_to_paste|module|dp mp],
           op2 as [source2 location2|target_file2 location_to_paste2|module2|dp2 mp2];
    simpl; try done.
  - intros [<- <-]. apply agree_install_dir_http.
  - intros [<- <-]. unfold upload_file. destruct (isdir target_file).
    + destruct location_to_paste; [|by apply agree_raise].
      apply (agree_bind eq); [apply agree_send_checked|].
      intros _ _ _. apply agree_install_dir_http.
    + apply agree_install_file_http.
  - intros [Hfile Hbundle]. unfold update, _update_http. rewrite <- Hfile, <- Hbundle.
    destruct (file module).
    + apply agree_install_file_http.
    + apply (agree_bind eq); [apply agree_send|]. intros r ? <-.
      apply (agree_bind eq); [apply agree_check_status|]. intros _ _ _.
      apply agree_install_dir_http.
  - intros _. apply agree_send_checked.
Qed.

(** The presence check says and logs the same for any two backends. *)
Lemma agree_is_device_present self1 self2 :
  agree eq (is_device_present self1) (is_device_present self2).
Proof.
  unfold is_device_present. apply agree_try_except.
  - apply (agree_bind eq); [apply agree_send|]. intros r ? <-.
    apply (agree_bind eq); [apply agree_raise_for_status|]. intros _ _ _.
    apply (agree_bind eq); [apply agree_json_of|]. intros d ? <-.
    assert (∀ v, agree eq
              (too_old ← lift (PyVal.lt_int v 4);
               if too_old : bool
               then
                 logger_write
                   ("Device running unsupported web API version " +:+ PyVal.str v
                    +:+ " < 4.") ;;
                 echo ("Device running unsupported web API version " +:+ PyVal.str v
                       +:+ " < 4.") ;;
                 mret false
               else mret true)
              (too_old ← lift (PyVal.lt_int v 4);
               if too_old : bool
               then
                 logger_write
                   ("Device running unsupported web API version " +:+ PyVal.str v
                    +:+ " < 4.") ;;
                 echo ("Device running unsupported web API version " +:+ PyVal.str v
                       +:+ " < 4.") ;;
                 mret false
               else mret true)) as Hversion.
    { intros v. apply (agree_bind eq).
      { apply agree_lift. destruct (PyVal.lt_int v 4); [done|apply same_exn_refl]. }
      intros too_old ? <-.
      destruct too_old; [|by apply agree_ret]. apply agree_complain. by apply agree_ret. }
    destruct (d !! "web_api_version") as [[|b|z|s]|];
      first [apply Hversion|apply agree_complain; by apply agree_ret].
  - intros [] []; try done; intros _; by apply agree_ret.
Qed.

Lemma agree_get_free_space self1 self2 :
  agree eq (get_free_space self1) (get_free_space self2).
Proof.
  unfold get_free_space.
  apply (agree_bind eq); [apply agree_send|]. intros r ? <-.
  apply (agree_bind eq); [apply agree_raise_for_status|]. intros _ _ _.
  apply (agree_bind eq); [apply agree_json_of|]. intros d ? <-.
  assert (∀ msg, agree eq (logger_write msg ;; echo msg ;; @raise jvalue (SystemExit 1))
                          (logger_write msg ;; echo msg ;; raise (SystemExit 1))) as Hexit.
  { intros msg. apply agree_complain. by apply agree_raise. }
  destruct (d !! "free") as [[|bf|f|sf]|]; try apply Hexit;
    (destruct (d !! "block_size") as [[|bb|b|sb]|]; try apply Hexit);
    (destruct (PyVal.is_none (d !! "writable") || PyVal.is_false (d !! "writable"));
       [apply Hexit|]);
    apply agree_lift;
    match goal with |- same_outcome _ ?o ?o => destruct o; [done|apply same_exn_refl] end.
Qed.

Lemma agree_file_exists self1 self2 filepath :
  agree eq (file_exists self1 filepath) (file_exists self2 filepath).
Proof.
  unfold file_exists. apply (agree_bind eq); [apply agree_send|].
  intros resp ? <-. by apply agree_ret.
Qed.

Lemma agree_ls_cli self1 self2 file :
  agree eq (ls_cli self1 file) (ls_cli self2 file).
Proof.
  unfold ls_cli, list_dir.
  apply (agree_bind eq); [apply agree_logger_write|]. intros _ _ _.
  apply (agree_bind eq); [apply agree_echo|]. intros _ _ _.
  apply (agree_bind eq).
  { apply (agree_bind eq); [apply agree_send|]. intros r ? <-.
    apply (agree_bind eq); [apply agree_echo|]. intros _ _ _.
    apply agree_lift. destruct (json_files r); [done|apply same_exn_refl]. }
  intros files ? <-.
  apply (agree_bind eq); [apply agree_echo|]. intros _ _ _.
  apply agree_for_each. intros cur_file. apply agree_echo.
Qed.

(** *** Start-up *)

Lemma agree_init host pw1 pw2 timeout :
  agree (λ _ _, True) (init host (Some pw1) timeout) (init host (Some pw2) timeout).
Proof.
  unfold init. destruct (getaddrinfo host); [by apply agree_ret|by apply agree_raise..].
Qed.

(** What start-up knows of two device paths: they are both there or both
    missing, and an explicit path makes them equal. *)
Lemma agree_get_device_path host pw1 pw2 path :
  agree (λ p1 p2 : option string,
           (Py.truthy_opt path = true → p1 = p2) ∧ (p1 = None ↔ p2 = None))
    (get_device_path host (Some pw1) path) (get_device_path host (Some pw2) path).
Proof.
  unfold get_device_path. destruct (Py.truthy_opt path); [by apply agree_ret|].
  destruct (Py.truthy_opt host); [by apply agree_ret|].
  unfold find_device. apply (agree_bind eq); [apply agree_logger_write|].
  intros _ _ _. by apply agree_ret.
Qed.

(** Building the backend shows the same whatever the password. *)
Lemma agree_connect host pw1 pw2 path p1 p2 timeout :
  (Py.truthy_opt path = true → p1 = p2) → (p1 = None ↔ p2 = None) →
  agree (λ x y : option string * WebBackend,
           (Py.truthy_opt path = true → x.1 = y.1) ∧ (x.1 = None ↔ y.1 = None))
    (connect host (Some pw1) p1 timeout)
    (connect host (Some pw2) p2 timeout).
Proof.
  intros Heq Hnone. unfold connect.
  apply (agree_bind (λ x y : string * option string,
           x.1 = y.1 ∧ (Py.truthy_opt path = true → x.2 = y.2)
           ∧ (x.2 = None ↔ y.2 = None))).
  - destruct (String.eqb host "circuitpython.local"); [|by apply agree_ret].
    apply (agree_bind eq); [apply agree_echo|]. intros _ _ _.
    apply (agree_bind eq); [apply agree_send|]. intros r ? <-.
    apply (agree_bind eq); [apply agree_json_of|]. intros d ? <-.
    apply (agree_bind eq).
    { destruct (d !! "hostname"); [by apply agree_ret|by apply agree_raise]. }
    intros hostname ? <-.
    apply (agree_bind eq); [apply agree_echo|]. intros _ _ _.
    destruct p1 as [s1|], p2 as [s2|].
    + apply agree_ret. simpl. split; [done|]. split; [|done].
      intros Hp. by injection (Heq Hp) as ->.
    + by destruct Hnone as [_ Hn]; specialize (Hn eq_refl).
    + by destruct Hnone as [Hn _]; specialize (Hn eq_refl).
    + by apply agree_raise.
  - intros [host1 dp1] [host2 dp2] (Hh & Hp & Hn). simpl in Hh, Hp, Hn. subst host2.
    apply (agree_bind (λ _ _, True)).
    + apply agree_try_except; [apply agree_init|].
      intros [] []; try done; intros He; simpl in He; try injection He as <-;
        (apply (agree_bind eq); [apply agree_echo|]; intros _ _ _; by apply agree_raise).
    + intros b1 b2 _. by apply agree_ret.
Qed.

Lemma agree_get_latest_release_from_url url :
  agree eq (shared.get_latest_release_from_url url) (shared.get_latest_release_from_url url).
Proof.
  unfold shared.get_latest_release_from_url.
  apply (agree_bind eq); [apply agree_logger_write|]. intros _ _ _.
  destruct release_head as [[response_url location]|]; [|by apply agree_raise].
  apply (agree_bind eq); [apply agree_logger_write|]. intros _ _ _. by apply agree_ret.
Qed.

Lemma found_bind {A} (P : string → string → Prop) (R : A → A → Prop) m1 m2 f1 f2 :
  agree R m1 m2 →
  (∀ a1 a2, R a1 a2 → agree_with (alike_but_found P) (f1 a1) (f2 a2)) →
  agree_with (alike_but_found P) (m1 ≫= f1) (m2 ≫= f2).
Proof.
  intros Hm Hf w1 w2 Hw. rewrite !bind_run.
  destruct (Hm w1 w2 Hw) as [Hw' Ho].
  destruct (m1 w1) as [[a1|e1] w1'], (m2 w2) as [[a2|e2] w2']; simpl in *; try done.
  - by apply Hf.
  - by left.
Qed.

Lemma found_agree (P : string → string → Prop) (m1 m2 : M unit) :
  agree eq m1 m2 → agree_with (alike_but_found P) m1 m2.
Proof. intros Hm w1 w2 Hw. left. by apply Hm. Qed.

(** Two runs of [main] that differ in the password only: the one thing
    they may show differently is the device path of their last line. *)
Lemma main_alike verbose path host pw1 pw2 timeout :
  agree_with (alike_but_found (λ p1 p2, Py.truthy_opt path = true → p1 = p2))
    (main verbose path host (Some pw1) timeout)
    (main verbose path host (Some pw2) timeout).
Proof.
  unfold main.
  eapply found_bind; [apply agree_get_device_path|]. intros dp1 dp2 [Heq Hnone].
  eapply found_bind; [apply agree_echo|]. intros _ _ _.
  eapply found_bind; [apply agree_echo|]. intros _ _ _.
  apply (found_bind _ (λ x y : option string * option WebBackend,
           (Py.truthy_opt path = true → x.1 = y.1) ∧ (x.1 = None ↔ y.1 = None)
           ∧ (x.2 = None ↔ y.2 = None))).
  { destruct host as [h|]; [|by apply agree_ret].
    eapply agree_bind; [by apply (agree_connect h pw1 pw2 path)|].
    intros [p1 b1] [p2 b2] [Hp Hn]. by apply agree_ret. }
  intros [p1 backend1] [p2 backend2] (Hp & Hn & Hb). simpl in Hp, Hn, Hb.
  eapply found_bind.
  { destruct verbose; [apply agree_echo|by apply (agree_ret eq)]. }
  intros _ _ _.
  eapply found_bind; [apply agree_logger_write|]. intros _ _ _.
  eapply found_bind; [apply agree_logger_write|]. intros _ _ _.
  eapply found_bind.
  { destruct circup_version as [version|]; [|by apply (agree_ret eq)].
    destruct (Py.truthy version); [|by apply (agree_ret eq)].
    apply agree_for_each. intros line. apply agree_echo. }
  intros _ _ _.
  destruct stops_early; [apply found_agree; by apply agree_ret|].
  eapply found_bind; [apply agree_get_latest_release_from_url|]. intros _ _ _.
  apply (found_bind _ eq).
  { destruct p1 as [s1|], p2 as [s2|].
    - destruct backend1 as [b1|], backend2 as [b2|].
      + apply agree_is_device_present.
      + by destruct Hb as [_ Hb']; specialize (Hb' eq_refl).
      + by destruct Hb as [Hb' _]; specialize (Hb' eq_refl).
      + by apply agree_raise.
    - by destruct Hn as [_ Hn']; specialize (Hn' eq_refl).
    - by destruct Hn as [Hn' _]; specialize (Hn' eq_refl).
    - by apply agree_ret. }
  intros present ? <-. destruct present.
  - destruct p1 as [s1|], p2 as [s2|].
    + intros w1 w2 Hw. right. exists w1, w2, s1, s2. split; [done|]. split; [|done].
      intros Hpath. by injection (Hp Hpath).
    + by destruct Hn as [_ Hn']; specialize (Hn' eq_refl).
    + by destruct Hn as [Hn' _]; specialize (Hn' eq_refl).
    + apply found_agree, agree_echo.
  - apply found_agree.
    apply (agree_bind eq); [apply agree_echo|]. intros _ _ _. by apply agree_raise.
Qed.

(** *** Where the credential does show *)

Lemma bind_Returned {A B} (m : M A) (f : A → M B) (w w' : world) (b : B) :
  (m ≫= f) w = (Returned b, w') →
  ∃ a w1, m w = (Returned a, w1) ∧ f a w1 = (Returned b, w').
Proof.
  rewrite bind_run. destruct (m w) as [[a|e] w1]; [|done]. intros H. by exists a, w1.
Qed.

(** Without an explicit path, the device path is built from the host and
    carries the password. *)
Lemma get_device_path_of_host h pw path w :
  Py.truthy_opt path = false → Py.truthy h = true →
  get_device_path (Some h) (Some pw) path w
  = (Returned (Some ("http://:" +:+ pw +:+ "@" +:+ h)), w).
Proof. intros Hp Hh. unfold get_device_path. rewrite Hp. simpl. by rewrite Hh. Qed.

(** The backend is built for the host given or, for the default host
    name, for the name the device reports, which then replaces the
    default name in the device path. *)
Lemma connect_path h password device_path timeout w p b w' :
  connect h password device_path timeout w = (Returned (p, b), w') →
  ∃ h' pw,
    (h ≠ "circuitpython.local" → h' = h)
    ∧ p = final_path h h' <$> device_path
    ∧ password = Some pw
    ∧ getaddrinfo h' = Resolved
    ∧ b = {| host := h'; password := pw; timeout := timeout |}.
Proof.
  unfold connect, final_path. intros H.
  apply bind_Returned in H as ([h' p'] & w1 & Hfirst & H).
  apply bind_Returned in H as (b' & w2 & Hb & [= <- <- <-]).
  assert (∃ pw, password = Some pw ∧ getaddrinfo h' = Resolved
                ∧ b' = {| host := h'; password := pw; timeout := timeout |})
    as (pw & Hpw & Hres & Hb').
  { unfold try_except, init in Hb.
    destruct password as [pw|]; [|by cbn in Hb]. exists pw.
    destruct (getaddrinfo h'); cbn in Hb; by simplify_eq. }
  exists h', pw. destruct (String.eqb_spec h "circuitpython.local") as [->|Hne].
  - split; [done|]. split; [|done].
    apply bind_Returned in Hfirst as (_ & w3 & _ & Hfirst).
    apply bind_Returned in Hfirst as (r & w4 & _ & Hfirst).
    apply bind_Returned in Hfirst as (d & w5 & _ & Hfirst).
    apply bind_Returned in Hfirst as (hostname & w6 & _ & Hfirst).
    apply bind_Returned in Hfirst as (_ & w7 & _ & Hfirst).
    destruct device_path as [dp|]; [|by cbn in Hfirst].
    by injection Hfirst as <- <- _.
  - injection Hfirst as <- <- _. split; [done|]. split; [|done].
    by destruct device_path.
Qed.

(** A run of [main] that gets to its end with the path built from the
    host shows that path, password included, as its last line. *)
Lemma main_shows_device_path verbose path h pw timeout w w' :
  Py.truthy_opt path = false → Py.truthy h = true →
  stops_early = false →
  main verbose path (Some h) (Some pw) timeout w = (Returned (), w') →
  ∃ h', (h ≠ "circuitpython.local" → h' = h)
        ∧ last (display w')
          = Some (found_line (final_path h h' ("http://:" +:+ pw +:+ "@" +:+ h))).
Proof.
  intros Hp Hh Hstop. unfold main. rewrite Hstop. intros H.
  apply bind_Returned in H as (device_path & w1 & Hd & H).
  rewrite get_device_path_of_host in Hd by done. injection Hd as <- <-.
  apply bind_Returned in H as (_ & w2 & _ & H).
  apply bind_Returned in H as (_ & w3 & _ & H).
  apply bind_Returned in H as ([p backend] & w4 & Hc & H).
  apply bind_Returned in Hc as ([p' b] & w5 & Hc & [= <- <- <-]).
  apply connect_path in Hc as (h' & pw' & Hh' & -> & _). exists h'. split; [done|].
  apply bind_Returned in H as (_ & w6 & _ & H).
  apply bind_Returned in H as (_ & w7 & _ & H).
  apply bind_Returned in H as (_ & w8 & _ & H).
  apply bind_Returned in H as (_ & w9 & _ & H).
  apply bind_Returned in H as (_ & w10 & _ & H).
  apply bind_Returned in H as (present & w11 & _ & H).
  destruct present; [|by cbn in H].
  unfold echo in H. injection H as <-. cbn [display Py.str_opt default id].
  rewrite last_snoc. reflexivity.
Qed.

(** An error status in the answer to the presence check leaves it as an
    [HTTPError] that names the URL asked, password included. *)
Lemma is_device_present_error_url self w r :
  respond (trace w) (presence_request self) = Answered r →
  is_error_status (status_code r) = true →
  (is_device_present self w).1
  = Raised (HTTPError (status_code r) (device_location self +:+ "/cp/version.json")).
Proof.
  intros Ha Hs. unfold is_device_present, try_except. cbv zeta.
  rewrite bind_run. unfold send. fold (presence_request self). rewrite Ha.
  rewrite bind_run. unfold raise_for_status. by rewrite Hs.
Qed.

(** With the path of the board given or built from the host, an error
    status in the answer to the presence check ends [main] itself in that
    error: nothing catches it. *)
Lemma main_presence_error verbose path h pw timeout w r :
  stops_early = false → h ≠ "circuitpython.local" → getaddrinfo h = Resolved →
  is_Some release_head →
  Py.truthy_opt path || Py.truthy h = true →
  respond (trace w) (presence_request {| host := h; password := pw; timeout := timeout |})
  = Answered r →
  is_error_status (status_code r) = true →
  (main verbose path (Some h) (Some pw) timeout w).1
  = Raised (HTTPError (status_code r)
              (("http://:" +:+ pw +:+ "@" +:+ h) +:+ "/cp/version.json")).
Proof.
  intros Hstop Hh Hres [[u l] Hhead] Hknown Ha Hs. unfold main. rewrite Hstop.
  assert (∃ dp, get_device_path (Some h) (Some pw) path w = (Returned (Some dp), w))
    as [dp Hdp].
  { unfold get_device_path. destruct path as [p|]; simpl in *.
    - destruct (Py.truthy p); simpl in *; [by exists p|]. rewrite Hknown. by eexists.
    - rewrite Hknown. by eexists. }
  rewrite bind_run, Hdp. rewrite bind_run, echo_run. rewrite bind_run, echo_run.
  rewrite bind_run, bind_run. unfold connect.
  destruct (String.eqb_spec h "circuitpython.local") as [|_]; [done|].
  rewrite bind_run. cbn [mret M_ret]. rewrite bind_run. unfold try_except, init.
  rewrite Hres. cbn [mret M_ret]. cbv beta iota.
  rewrite bind_run.
  assert (∀ w1, ∃ shown,
            (if verbose then echo ("Logging to " +:+ LOGFILE +:+ String "010" "")
             else mret ()) w1
            = (Returned (), World (trace w1) (display w1 ++ shown) (log w1)))
    as Hverbose.
  { intros w1. destruct verbose; [by eexists [_]|].
    exists []. rewrite app_nil_r. by destruct w1. }
  match goal with |- context [(if verbose then _ else _) ?w1] =>
    destruct (Hverbose w1) as [shown ->]
  end.
  rewrite bind_run, logger_write_run. rewrite bind_run, logger_write_run.
  rewrite bind_run.
  assert (∀ w1, ∃ shown,
            match circup_version with
            | Some version =>
                if Py.truthy version then for_each (update_check version) echo
                else mret ()
            | None => mret ()
            end w1
            = (Returned (), World (trace w1) (display w1 ++ shown) (log w1)))
    as Hupdate.
  { intros w1. destruct circup_version as [version|].
    - destruct (Py.truthy version).
      + exists (id <$> update_check version). apply (for_each_echo id).
      + exists []. rewrite app_nil_r. by destruct w1.
    - exists []. rewrite app_nil_r. by destruct w1. }
  match goal with |- context [match circup_version with _ => _ end ?w1] =>
    destruct (Hupdate w1) as [lines ->]
  end.
  rewrite bind_run. unfold shared.get_latest_release_from_url.
  rewrite bind_run, logger_write_run, Hhead. rewrite bind_run, logger_write_run.
  cbn [mret M_ret]. rewrite bind_run.
  unfold is_device_present, try_except. cbv zeta.
  rewrite bind_run. unfold send. cbn [trace display log].
  fold (presence_request {| host := h; password := pw; timeout := timeout |}).
  rewrite Ha. rewrite bind_run. unfold raise_for_status. by rewrite Hs.
Qed.

Lemma alike_of_agree {A} (m1 m2 : M A) (w : world) :
  agree eq m1 m2 → alike (m1 w) (m2 w).
Proof.
  intros Hm. destruct (Hm w w (same_output_refl w)) as [(Hd & Hl & _) Ho]. by split.
Qed.


End credential.



(** * Further properties of the code *)

(** ** Listing order, whatever the listing *)

Section listing_more.
Import command_utils.

(** The result depends on the listing only through the last entry of
    each slot. *)
Lemma sorted_by_slots (l l' : list entry) :
  (∀ kb, slot_last kb l = slot_last kb l') →
  sorted_by_directory_then_alpha l = sorted_by_directory_then_alpha l'.
Proof.
  intros Hslots. rewrite !sorted_unfold.
  assert ((foldl file_step (∅, ∅) l).1 = (foldl file_step (∅, ∅) l').1) as ->.
  { apply map_eq. intros k.
    rewrite (proj1 (partition_lookup l k)), (proj1 (partition_lookup l' k)).
    apply Hslots. }
  assert ((foldl file_step (∅, ∅) l).2 = (foldl file_step (∅, ∅) l').2) as ->.
  { apply map_eq. intros k.
    rewrite (proj2 (partition_lookup l k)), (proj2 (partition_lookup l' k)).
    apply Hslots. }
  done.
Qed.

Lemma filter_slot_short {A B} `{EqDecision B} (f : A → B) (l : list A) (y : B) :
  NoDup (f <$> l) → (length (filter (λ x, f x = y) l) ≤ 1)%nat.
Proof.
  intros Hnd. destruct (filter (λ x, f x = y) l) as [|e rest] eqn:Hf; [simpl; lia|].
  assert (e ∈ filter (λ x, f x = y) l) as He by (rewrite Hf; left).
  apply list_elem_of_filter in He as [<- He].
  rewrite (filter_unique f l e Hnd He) in Hf. injection Hf as <-. simpl. lia.
Qed.

(** X1. For every listing, also one that repeats names: the result is a
    run of directory entries followed by a run of file entries; within
    each run the names ascend and no name occurs twice; and every entry
    of the result is an entry of the listing. *)
Theorem sorted_by_directory_then_alpha_shape (l : list entry) :
  ∃ dirs files : list entry,
    sorted_by_directory_then_alpha l = (dirs ++ files)%list
    ∧ Forall (λ e, directory e = true) dirs
    ∧ Forall (λ e, directory e = false) files
    ∧ StronglySorted String.le (name <$> dirs) ∧ NoDup (name <$> dirs)
    ∧ StronglySorted String.le (name <$> files) ∧ NoDup (name <$> files)
    ∧ ∀ e, e ∈ sorted_by_directory_then_alpha l → e ∈ l.
Proof.
  pose proof (dirs_slot_map l) as Hd. pose proof (files_slot_map l) as Hf.
  exists (picks (foldl file_step (∅, ∅) l).1), (picks (foldl file_step (∅, ∅) l).2).
  split; [apply sorted_unfold|].
  split; [by apply picks_directory|]. split; [by apply picks_directory|].
  assert (∀ m, StronglySorted String.le (Py.sorted (keys m))) as Hs
    by (intros m; apply StronglySorted_merge_sort; apply _).
  rewrite (picks_names true), (picks_names false) by done.
  split; [done|]. split; [apply sorted_keys_NoDup|].
  split; [done|]. split; [apply sorted_keys_NoDup|].
  intros e He. apply elem_of_sorted in He. by apply slot_last_Some in He as [? _].
Qed.

(** X2. The order in which the device reports a listing does not matter:
    two listings that are rearrangements of one another, no name twice
    within a partition, give the same result. *)
Theorem sorted_by_directory_then_alpha_canonical (l l' : list entry) :
  l ≡ₚ l' → NoDup (slot_key <$> l) →
  sorted_by_directory_then_alpha l = sorted_by_directory_then_alpha l'.
Proof.
  intros Hp Hnd. apply sorted_by_slots. intros kb. unfold slot_last.
  assert (NoDup (slot_key <$> l')) as Hnd' by (by rewrite <- Hp).
  pose proof (filter_slot_short slot_key l kb Hnd) as H1.
  pose proof (filter_slot_short slot_key l' kb Hnd') as H2.
  assert (filter (λ e, slot_key e = kb) l ≡ₚ filter (λ e, slot_key e = kb) l') as Hf
    by (by rewrite Hp).
  destruct (filter (λ e, slot_key e = kb) l) as [|a [|??]],
           (filter (λ e, slot_key e = kb) l') as [|b [|??]];
    simpl in *; try lia; try done.
  - by apply Permutation_nil_cons in Hf.
  - symmetry in Hf. by apply Permutation_nil_cons in Hf.
  - by apply Permutation_singleton_inj in Hf as ->.
Qed.

Lemma sorted_by_directory_then_alpha_canonical_witness :
  sorted_by_directory_then_alpha
    [Entry "boot.py" 120 false; Entry "lib" 0 true; Entry "Code.py" 64 false]
  = sorted_by_directory_then_alpha
      [Entry "Code.py" 64 false; Entry "boot.py" 120 false; Entry "lib" 0 true].
Proof.
  apply sorted_by_directory_then_alpha_canonical.
  - apply (bool_decide_unpack _). vm_compute. exact I.
  - apply (bool_decide_unpack _). vm_compute. exact I.
Defined.

(** X3. Ordering an ordered listing changes nothing. *)
Theorem sorted_by_directory_then_alpha_idempotent (l : list entry) :
  sorted_by_directory_then_alpha (sorted_by_directory_then_alpha l)
  = sorted_by_directory_then_alpha l.
Proof.
  apply sorted_by_slots. intros kb. unfold slot_last at 1.
  rewrite sorted_filter_slot. by destruct (slot_last kb l).
Qed.

End listing_more.

(** ** The name taken from a source path *)

Section source_names.
Context `{urllib : !Urllib, device : !Device, disk : !LocalFS}.
Import backends.

Lemma split_not_nil (sep : ascii) (s : string) : Py.split sep s ≠ [].
Proof.
  induction s as [|c s IH]; [done|]. simpl.
  destruct (Ascii.eqb c sep); [done|]. by destruct (Py.split sep s).
Qed.

(** A path without separator is its own single component. *)
Lemma split_singleton (sep : ascii) (s w : string) : Py.split sep s = [w] → w = s.
Proof.
  revert w. induction s as [|c s IH]; intros w; simpl.
  - by intros [= <-].
  - destruct (Ascii.eqb c sep).
    + intros [= _ Hnil]. by apply split_not_nil in Hnil.
    + destruct (Py.split sep s) as [|w' ws] eqn:Hs; [by intros [= <-]; destruct (split_not_nil sep s)|].
      intros [= <- ->]. by rewrite (IH w' eq_refl).
Qed.

Lemma contains_sep_cons (sep c : ascii) (w : string) :
  Py.contains (String sep "") (String c w)
  = Ascii.eqb sep c || Py.contains (String sep "") w.
Proof. simpl. by rewrite andb_true_r. Qed.

(** No component holds the separator. *)
Lemma split_no_sep (sep : ascii) (s : string) :
  Forall (λ w, Py.contains (String sep "") w = false) (Py.split sep s).
Proof.
  induction s as [|c s IH]; [by repeat constructor|]. simpl.
  destruct (Ascii.eqb_spec c sep) as [->|Hne].
  - constructor; [done|apply IH].
  - destruct (Py.split sep s) as [|w ws] eqn:Hs; [by destruct (split_not_nil sep s)|].
    apply Forall_cons in IH as [Hw Hws]. constructor; [|done].
    rewrite contains_sep_cons, Hw, orb_false_r.
    apply Ascii.eqb_neq. congruence.
Qed.

(** X4. The name an upload takes from its source path never holds a path
    separator, and the only source path that yields no name is the empty
    one: it raises [IndexError], and neither the file upload nor the
    directory mirror sends a request for it. *)
Theorem source_name_cases (self : WebBackend) (source : string) :
  (∀ n, source_name source = Returned n → Py.contains "/" n = false)
  ∧ (∀ e, source_name source = Raised e → source = "" ∧ e = IndexError)
  ∧ (∀ location w,
       install_file_http self "" location w = (Raised IndexError, w)
       ∧ install_dir_http self "" location w = (Raised IndexError, w)).
Proof.
  pose proof (split_no_sep "/" source) as Hsep.
  pose proof (split_singleton "/" source) as Hone.
  unfold source_name.
  destruct (last (Py.split "/" source)) as [n|] eqn:Hlast; last first.
  { apply last_None in Hlast. by apply split_not_nil in Hlast. }
  assert (Py.contains "/" n = false) as Hn.
  { rewrite Forall_forall in Hsep. apply Hsep. by apply last_Some_elem_of. }
  split; [|split].
  - intros m. destruct n as [|c n'].
    + case_decide as Hlen; [|done]. intros [= <-].
      destruct (Py.split "/" source !! (length (Py.split "/" source) - 2)%nat)
        as [m|] eqn:Hm; [|done].
      rewrite Forall_forall in Hsep. apply Hsep. by eapply list_elem_of_lookup_2.
    + by intros [= <-].
  - intros e. destruct n as [|c n']; [|done].
    case_decide as Hlen; [done|]. intros [= <-]. split; [|done].
    destruct (Py.split "/" source) as [|w [|w' ws]] eqn:Hs; simpl in *; try lia.
    + by destruct (split_not_nil "/" source).
    + injection Hlast as ->. symmetry. by apply Hone.
  - done.
Qed.

End source_names.

Lemma source_name_cases_witness :
  Py.contains "/" "adafruit_bus_device" = false.
Proof.
  destruct (@source_name_cases Demo.urllib (Demo.device_answering ConnectionFailed)
              Demo.disk Demo.self "bundle/lib/adafruit_bus_device/") as (Hname & _ & _).
  apply Hname. reflexivity.
Defined.

(** ** Failures of a request end the operation *)

Section failures.
Context `{urllib : !Urllib, device : !Device, disk : !LocalFS}.
Import backends.

Lemma saf_pure {A} (m : M A) : (∀ w, (m w).2 = w) → stops_at_failure m.
Proof.
  intros Hm w. rewrite Hm. apply checked_through with (tr := []); [|constructor].
  by rewrite app_nil_r.
Qed.

Lemma saf_ext {A} (m m' : M A) :
  (∀ w, m' w = m w) → stops_at_failure m → stops_at_failure m'.
Proof. intros E Hm w. rewrite E. apply Hm. Qed.

Lemma saf_bind {A B} (m : M A) (f : A → M B) :
  stops_at_failure m → (∀ a, stops_at_failure (f a)) → stops_at_failure (m ≫= f).
Proof.
  intros Hm Hf w. specialize (Hm w). rewrite bind_run.
  destruct (m w) as [[a|e] w1]; simpl in *; last first.
  { inversion Hm; subst; [by eapply checked_through|by eapply checked_stopped]. }
  inversion Hm as [? ? tr1 Ht1 Hc1|]; subst.
  specialize (Hf a w1). destruct (f a w1) as [res w2]; simpl in *.
  inversion Hf as [? ? tr2 Ht2 Hc2|? tr2 x e Ht2 Hc2 Hx]; subst.
  - apply checked_through with (tr := (tr1 ++ tr2)%list).
    + by rewrite Ht2, Ht1, app_assoc.
    + by apply Forall_app.
  - apply checked_stopped with (tr := (tr1 ++ tr2)%list) (x := x).
    + by rewrite Ht2, Ht1, !app_assoc.
    + by apply Forall_app.
    + done.
Qed.

Lemma saf_bind_checked {A B C} (m : M A) (f : A → M B) (k : M C) :
  stops_at_failure (r ← m; f r) → stops_at_failure k →
  stops_at_failure (r ← m; f r ;; k).
Proof.
  intros Hm Hk. apply (saf_ext ((m ≫= f) ≫= λ _, k)).
  - intros w. apply bind_assoc_run.
  - by apply saf_bind.
Qed.

Lemma saf_for_each {A} (l : list A) (body : A → M unit) :
  (∀ x, stops_at_failure (body x)) → stops_at_failure (for_each l body).
Proof.
  intros Hb. induction l as [|x l IH]; [by apply saf_pure|].
  apply saf_bind; [apply Hb|]. intros _. apply IH.
Qed.

Lemma saf_send_checked (req : request) :
  stops_at_failure (r ← send req; check_status (url req) r).
Proof.
  intros w. rewrite bind_run. unfold send.
  destruct (respond (trace w) req) as [| |r] eqn:Ha.
  - by apply checked_stopped with (tr := []) (x := (req, ConnectionFailed)).
  - by apply checked_stopped with (tr := []) (x := (req, TimedOut)).
  - unfold check_status. rewrite bind_run.
    destruct (status_code r =? 409) eqn:Hs.
    + apply checked_stopped with (tr := []) (x := (req, Answered r)); try done.
      simpl. by rewrite Hs.
    + unfold raise_for_status.
      destruct (is_error_status (status_code r)) eqn:He.
      * apply checked_stopped with (tr := []) (x := (req, Answered r)); try done.
        simpl. by rewrite Hs, He.
      * apply checked_through with (tr := [(req, Answered r)]); [done|].
        repeat constructor. simpl. by rewrite Hs, He.
Qed.

Lemma saf_install_file_http self source location :
  stops_at_failure (install_file_http self source location).
Proof.
  unfold install_file_http.
  apply saf_bind; [by apply saf_pure|]. intros file_name.
  apply saf_bind.
  - unfold read_file. destruct (lookup_path source) as [[]|]; by apply saf_pure.
  - intros content. apply saf_send_checked.
Qed.

Lemma saf_install_dir_http self source location :
  stops_at_failure (install_dir_http self source location).
Proof.
  unfold install_dir_http.
  apply saf_bind; [by apply saf_pure|]. intros target.
  apply saf_bind_checked; [apply saf_send_checked|].
  apply saf_for_each. intros [[root dirs] files].
  apply saf_bind.
  - apply saf_for_each. intros name. apply saf_send_checked.
  - intros _. apply saf_for_each. intros [name content]. apply saf_send_checked.
Qed.

Lemma saf_run_operation self op : stops_at_failure (run_operation self op).
Proof.
  destruct op as [source location|target_file location_to_paste|module|dp mp]; simpl.
  - apply saf_install_dir_http.
  - unfold upload_file. destruct (isdir target_file).
    + destruct location_to_paste; [|by apply saf_pure].
      apply saf_bind; [apply saf_send_checked|].
      intros _. apply saf_install_dir_http.
    + apply saf_install_file_http.
  - unfold update, _update_http. destruct (file module).
    + apply saf_install_file_http.
    + apply saf_bind_checked; [apply saf_send_checked|].
      apply saf_install_dir_http.
  - apply saf_send_checked.
Qed.

(** X5. In a mirror, an upload, an update or a delete, the first request
    that fails is the last one sent and decides how the operation ends:
    an HTTP error status other than 409 ends it with [HTTPError] of that
    status, a failed connection with [ConnectionError]. An operation that
    returns normally had every one of its requests accepted. *)
Theorem failure_aborts_operation self op w tr :
  trace (run_operation self op w).2 = (trace w ++ tr)%list →
  (∀ req a e, (req, a) ∈ tr → failure_of req a = Some e →
     (run_operation self op w).1 = Raised e
     ∧ ∃ tr0, tr = (tr0 ++ [(req, a)])%list
              ∧ Forall (λ x, failure_of x.1 x.2 = None) tr0)
  ∧ (∀ req r, (req, Answered r) ∈ tr →
       is_error_status (status_code r) = true → status_code r ≠ 409 →
       (run_operation self op w).1 = Raised (HTTPError (status_code r) (url req)))
  ∧ ((run_operation self op w).1 = Returned () →
       Forall (λ x, failure_of x.1 x.2 = None) tr).
Proof.
  intros Ht.
  pose proof (saf_run_operation self op w) as Hrun.
  destruct (run_operation self op w) as [res w']; simpl in *.
  assert (∀ req a e, (req, a) ∈ tr → failure_of req a = Some e →
     res = Raised e
     ∧ ∃ tr0, tr = (tr0 ++ [(req, a)])%list
              ∧ Forall (λ x, failure_of x.1 x.2 = None) tr0) as Hfirst.
  { intros req a e Hin Hfail.
    inversion Hrun as [? ? tr1 Ht1 Hc1|? tr1 x e1 Ht1 Hc1 Hx]; subst.
    - rewrite Ht in Ht1. apply app_inv_head in Ht1 as ->.
      rewrite Forall_forall in Hc1. specialize (Hc1 _ Hin). simpl in Hc1. congruence.
    - rewrite Ht in Ht1. apply app_inv_head in Ht1 as ->.
      apply elem_of_app in Hin as [Hin|Hin].
      + rewrite Forall_forall in Hc1. specialize (Hc1 _ Hin). simpl in Hc1. congruence.
      + apply list_elem_of_singleton in Hin as <-. simpl in Hx.
        split; [congruence|]. by exists tr1. }
  split; [done|]. split.
  - intros req r Hin He Hne. apply (Hfirst req (Answered r)); [done|].
    simpl. apply Z.eqb_neq in Hne. by rewrite Hne, He.
  - intros ->. inversion Hrun as [? ? tr1 Ht1 Hc1|]; subst.
    rewrite Ht in Ht1. by apply app_inv_head in Ht1 as ->.
Qed.

End failures.

(** The device answers the second request of a mirror with status 507. *)
Lemma failure_aborts_operation_witness :
  let run := @run_operation Demo.urllib (Demo.device_failing 1 507) Demo.disk
               Demo.self (Mirror "mod" None) Demo.start in
  run.1 = Raised (HTTPError 507 "http://:pw@dev.local/fs/lib/mod/sub/")
  ∧ length (trace run.2) = 2%nat.
Proof.
  intros run.
  destruct (@failure_aborts_operation Demo.urllib (Demo.device_failing 1 507) Demo.disk
              Demo.self (Mirror "mod" None) Demo.start (trace run.2) eq_refl)
    as (_ & Hstatus & _).
  split; [|reflexivity].
  apply (Hstatus
           (Request PUT "http://:pw@dev.local/fs/lib/mod/sub/" None
              (HTTPBasicAuth "" (Some "pw")) false (Some 10))
           (Response 507 NotJSON)).
  - vm_compute. right. left.
  - reflexivity.
  - discriminate.
Defined.

(** ** What a mirror sends, and what it does not *)

Section mirror_more.
Context `{urllib : !Urllib, device : !Device, disk : !LocalFS}.
Import backends.

Lemma request_of_put self target ev :
  meth (request_of self target ev) = PUT
  ∧ req_timeout (request_of self target ev) = Some (timeout self)
  ∧ req_auth (request_of self target ev) = HTTPBasicAuth "" (urlparse_password target).
Proof. by destruct ev. Qed.

Lemma prefix_fmap_Forall {A B} (f : A → B) (P : B → Prop) (l : list A) (k : list B) :
  f <$> l `prefix_of` k → Forall P k → Forall (λ x, P (f x)) l.
Proof.
  intros [k' ->] Hk. apply Forall_app in Hk as [Hk _].
  rewrite Forall_fmap in Hk. exact Hk.
Qed.

(** X6. A mirror sends nothing but write requests, each with the timeout
    of the backend: no request is ever sent to take back what an aborted
    mirror has already created. It sends at most one request per
    directory and file of the source besides the top-level one, and
    exactly that many when it returns normally. *)
Theorem install_dir_http_only_writes self source location w :
  let run := install_dir_http self source location w in
  ∃ tr, trace run.2 = (trace w ++ tr)%list
        ∧ Forall (λ x, meth x.1 = PUT ∧ req_timeout x.1 = Some (timeout self)) tr
        ∧ (length tr ≤ length (mirror_events source))%nat
        ∧ (run.1 = Returned () → length tr = length (mirror_events source)).
Proof.
  intros run. subst run.
  destruct (install_dir_target self source location) as [target|e] eqn:Htarget.
  - destruct (emits_install_dir_http self source location target Htarget w)
      as (tr & Ht & Hp & Hr).
    exists tr. split; [done|]. split; [|split].
    + apply (prefix_fmap_Forall fst
               (λ r, meth r = PUT ∧ req_timeout r = Some (timeout self)) tr _ Hp).
      apply Forall_fmap, Forall_forall. intros ev _.
      by destruct (request_of_put self target ev) as (? & ? & _).
    + apply prefix_length in Hp. by rewrite !length_fmap in Hp.
    + intros Hret. specialize (Hr () Hret).
      apply (f_equal length) in Hr. by rewrite !length_fmap in Hr.
  - exists []. unfold install_dir_http. rewrite Htarget, bind_run. simpl.
    rewrite app_nil_r. split; [done|]. split; [constructor|]. split; [lia|done].
Qed.

(** X7. A source path that is a regular file, or that does not exist, is
    mirrored without complaint: [os.walk] yields nothing for it, so the
    top-level directory is created on the device and nothing else is
    sent; when the device accepts that request the mirror returns
    normally. *)
Theorem install_dir_http_not_a_directory self source location target w :
  isdir source = false →
  install_dir_target self source location = Returned target →
  let run := install_dir_http self source location w in
  let top := request_of self target CreateTop in
  trace run.2 = (trace w ++ [(top, respond (trace w) top)])%list
  ∧ (failure_of top (respond (trace w) top) = None → run.1 = Returned ()).
Proof.
  intros Hdir Htarget run top. subst run top.
  unfold install_dir_http. rewrite Htarget.
  assert (os_walk_path source = []) as ->.
  { unfold os_walk_path, isdir in *. by destruct (lookup_path source) as [[c|es]|]. }
  rewrite bind_run. unfold lift. cbv beta iota. rewrite bind_run.
  unfold session_put, send. cbn [request_of].
  destruct (respond (trace w) _) as [| |r]; [done|done|].
  rewrite bind_run. unfold check_status. rewrite bind_run.
  cbn [failure_of]. destruct (status_code r =? 409); [done|].
  unfold raise_for_status. by destruct (is_error_status (status_code r)).
Qed.

Lemma check_status_run (req : request) (r : response) (w : world) :
  match failure_of req (Answered r) with
  | None => check_status (url req) r w = (Returned (), w)
  | Some e =>
      (check_status (url req) r w).1 = Raised e
      ∧ trace (check_status (url req) r w).2 = trace w
  end.
Proof.
  unfold check_status, failure_of. rewrite bind_run.
  destruct (status_code r =? 409); [done|].
  unfold raise_for_status. by destruct (is_error_status (status_code r)).
Qed.

(** X8. Uploading a directory needs a destination: without one
    [upload_file] raises [TypeError] before anything is sent, although a
    file is uploaded without one. With a destination the first request
    creates [fs/<destination>/<directory>/], and once the device accepts
    it the upload goes on as the mirror without destination, into the
    library default. *)
Theorem upload_file_of_directory self target_file w :
  isdir target_file = true →
  upload_file self target_file None w = (Raised TypeError, w)
  ∧ ∀ location_to_paste,
      let create :=
        Request PUT
          (urljoin (device_location self)
             ("fs/" +:+ location_to_paste +:+ "/" +:+ target_file +:+ "/") true)
          None (HTTPBasicAuth "" (urlparse_password (device_location self)))
          false (Some (timeout self)) in
      let a := respond (trace w) create in
      let w1 := World (trace w ++ [(create, a)]) (display w) (log w) in
      (failure_of create a = None →
         upload_file self target_file (Some location_to_paste) w
         = install_dir_http self target_file None w1)
      ∧ (∀ e, failure_of create a = Some e →
           (upload_file self target_file (Some location_to_paste) w).1 = Raised e
           ∧ trace (upload_file self target_file (Some location_to_paste) w).2
             = trace w1).
Proof.
  intros Hdir. unfold upload_file. rewrite Hdir. split; [done|].
  intros location_to_paste. cbv zeta.
  unfold _create_library_directory. rewrite !bind_run.
  unfold session_put, send.
  change (Py.join "/" ["fs"; location_to_paste; target_file; ""])
    with ("fs/" +:+ location_to_paste +:+ "/" +:+ target_file +:+ "/").
  destruct (respond (trace w) _) as [| |r]; cbv beta iota.
  - split; [done|]. by intros e [= <-].
  - split; [done|]. by intros e [= <-].
  - match goal with |- context [check_status ?u r ?w1] =>
      pose proof (check_status_run
                    (Request PUT u None
                       (HTTPBasicAuth "" (urlparse_password (device_location self)))
                       false (Some (timeout self))) r w1) as Hc;
      cbn [url] in Hc;
      destruct (failure_of _ (Answered r)) as [e'|];
      [destruct Hc as [Ho Ht]; destruct (check_status u r w1) as [[[]|e1] w2]
      |rewrite Hc]
    end; simpl in *.
    + done.
    + split; [done|]. intros e [= <-]. by subst.
    + split; [done|]. by intros e.
Qed.

End mirror_more.

Lemma install_dir_http_not_a_directory_witness :
  let run := @backends.install_dir_http Demo.urllib
               (Demo.device_answering (Answered (Response 200 NotJSON))) Demo.disk
               Demo.self "code.py" None Demo.start in
  (trace run.2).*1
  = [Request PUT "http://:pw@dev.local/fs/lib/code.py/" None
       (HTTPBasicAuth "" (Some "pw")) false (Some 10)]
  ∧ run.1 = Returned ().
Proof.
  intros run.
  destruct (@install_dir_http_not_a_directory Demo.urllib
              (Demo.device_answering (Answered (Response 200 NotJSON))) Demo.disk
              Demo.self "code.py" None "http://:pw@dev.local/fs/lib/code.py/" Demo.start
              eq_refl eq_refl) as [Htrace Hret].
  split.
  - unfold run. rewrite Htrace. reflexivity.
  - apply Hret. reflexivity.
Defined.

Lemma upload_file_of_directory_witness :
  @backends.upload_file Demo.urllib (Demo.device_answering (Answered (Response 200 NotJSON)))
    Demo.disk Demo.self "mod" None Demo.start
  = (Raised TypeError, Demo.start).
Proof.
  apply (@upload_file_of_directory Demo.urllib
           (Demo.device_answering (Answered (Response 200 NotJSON))) Demo.disk
           Demo.self "mod" Demo.start).
  reflexivity.
Defined.

(** ** The probes: what they send, show and raise *)

Section probes_more.
Context `{urllib : !Urllib, device : !Device, disk : !LocalFS}.
Import backends.

Local Ltac side_goal :=
  first [done | simpl; lia | discriminate | intros; discriminate | intros; congruence].
Local Ltac quiet := exists []; rewrite !app_nil_r; repeat split; side_goal.
Local Ltac loud := eexists (cons _ nil); repeat split; side_goal.
Local Ltac never_raised := split; [discriminate|intros ?; discriminate].

(** X9. The presence check sends exactly one request, whatever the
    answer. What it logs it also shows, at most one message, and only
    when it returns [False]; a failed connection gives [False] without
    any message. It never ends in [ConnectionError] and never exits the
    process. *)
Theorem is_device_present_effects self w :
  let run := is_device_present self w in
  let a := respond (trace w) (presence_request self) in
  trace run.2 = (trace w ++ [(presence_request self, a)])%list
  ∧ (∃ msgs, display run.2 = (display w ++ msgs)%list
             ∧ log run.2 = (log w ++ msgs)%list
             ∧ (length msgs ≤ 1)%nat
             ∧ (msgs ≠ [] → run.1 = Returned false)
             ∧ (a = ConnectionFailed → msgs = [] ∧ run.1 = Returned false))
  ∧ run.1 ≠ Raised ConnectionError
  ∧ ∀ code, run.1 ≠ Raised (SystemExit code).
Proof.
  intros run a. subst run a. unfold is_device_present, try_except. cbv zeta.
  rewrite bind_run. unfold send. fold (presence_request self).
  destruct (respond (trace w) (presence_request self)) as [| |r]; cbv beta iota.
  { cbn. split; [done|]. split; [quiet|never_raised]. }
  { cbn. split; [done|]. split; [quiet|never_raised]. }
  rewrite bind_run. unfold raise_for_status.
  destruct (is_error_status (status_code r)).
  { cbn. split; [done|]. split; [quiet|never_raised]. }
  cbn [mret M_ret]. rewrite bind_run. unfold json_of.
  destruct (json r) as [|d|].
  1,3: cbn; (split; [done|]); (split; [quiet|never_raised]).
  cbn [mret M_ret].
  destruct (d !! "web_api_version") as [[|b|v|s]|].
  - split; [done|]. split; [loud|never_raised].
  - destruct b; (split; [done|]); (split; [loud|never_raised]).
  - rewrite bind_run. unfold lift, PyVal.lt_int. cbv beta iota.
    destruct (v <? 4); (split; [done|]); (split; [first [loud|quiet]|never_raised]).
  - split; [done|]. split; [quiet|never_raised].
  - split; [done|]. split; [loud|never_raised].
Qed.

(** X10. The remaining shapes of the answer to the presence check: a
    boolean [web_api_version] counts as 0 or 1 and gives [False]; a
    string one raises [TypeError]; a body that is no JSON raises the
    decoding error, and JSON that is no object, a list say, the
    [AttributeError] of [.get]. All three exceptions pass the handler for
    connection errors. *)
Theorem is_device_present_other_fields self w r :
  respond (trace w) (presence_request self) = Answered r →
  is_error_status (status_code r) = false →
  let run := is_device_present self w in
  (json r = NotJSON → run.1 = Raised JSONDecodeError)
  ∧ (json r = JSONOther → run.1 = Raised AttributeError)
  ∧ (∀ d b, json r = JSONObject d → d !! "web_api_version" = Some (JBool b) →
       run.1 = Returned false)
  ∧ (∀ d s, json r = JSONObject d → d !! "web_api_version" = Some (JStr s) →
       run.1 = Raised TypeError).
Proof.
  intros Ha Hs run. subst run. unfold is_device_present, try_except. cbv zeta.
  rewrite bind_run. unfold send. fold (presence_request self). rewrite Ha.
  rewrite bind_run. unfold raise_for_status. rewrite Hs.
  cbn [mret M_ret]. rewrite bind_run. unfold json_of.
  split; [|split; [|split]].
  - by intros ->.
  - by intros ->.
  - intros d b -> Hv. cbn [mret M_ret]. rewrite Hv. by destruct b.
  - intros d s -> Hv. cbn [mret M_ret]. by rewrite Hv.
Qed.

(** X11. The free-space query sends exactly one request. What it logs it
    also shows, at most one message, and it shows a message exactly when
    it ends the process with status 1. *)
Theorem get_free_space_effects self w :
  let run := get_free_space self w in
  let a := respond (trace w) (free_space_request self) in
  trace run.2 = (trace w ++ [(free_space_request self, a)])%list
  ∧ ∃ msgs, display run.2 = (display w ++ msgs)%list
            ∧ log run.2 = (log w ++ msgs)%list
            ∧ (length msgs ≤ 1)%nat
            ∧ (msgs ≠ [] ↔ run.1 = Raised (SystemExit 1)).
Proof.
  intros run a. subst run a. unfold get_free_space.
  rewrite bind_run. unfold send. fold (free_space_request self).
  destruct (respond (trace w) (free_space_request self)) as [| |r]; cbv beta iota.
  { cbn. split; [done|]. quiet. }
  { cbn. split; [done|]. quiet. }
  rewrite bind_run. unfold raise_for_status.
  destruct (is_error_status (status_code r)).
  { cbn. split; [done|]. quiet. }
  cbn [mret M_ret]. rewrite bind_run. unfold json_of.
  destruct (json r) as [|d|].
  1,3: cbn; (split; [done|]); quiet.
  cbn [mret M_ret].
  destruct (d !! "free") as [[|bf|f|sf]|];
    destruct (d !! "block_size") as [[|bb|b|sb]|];
    destruct (d !! "writable") as [[|[|]|v|sv]|]; cbn;
    (split; [done|]); first [loud|quiet].
Qed.

(** X12. Only an absent, null or [false] value of [writable] blocks the
    free-space query: the test is on identity, so any other value, the
    integer 0 or a string among them, lets the product through. *)
Theorem get_free_space_writable_values self w r d free block_size v :
  respond (trace w) (free_space_request self) = Answered r →
  is_error_status (status_code r) = false →
  json r = JSONObject d →
  d !! "free" = Some (JInt free) →
  d !! "block_size" = Some (JInt block_size) →
  d !! "writable" = Some v → v ≠ JNull → v ≠ JBool false →
  (get_free_space self w).1 = Returned (JInt (free * block_size)).
Proof.
  intros Ha Hs Hj Hf Hb Hw Hnull Hfalse. unfold get_free_space.
  rewrite bind_run. unfold send. fold (free_space_request self). rewrite Ha.
  rewrite bind_run. unfold raise_for_status. rewrite Hs. cbn [mret M_ret].
  rewrite bind_run. unfold json_of. rewrite Hj. cbn [mret M_ret].
  rewrite Hf, Hb, Hw. by destruct v as [|[|]| |].
Qed.

(** X13. The existence check sends one request and answers [True] for
    status 200 only. Every other status, 404, 409 and 5xx among them,
    gives [False]: the status is never a reason to raise, nothing is shown
    or logged and the process is not ended. A request that fails is not
    handled: the [ConnectionError] of a failed connection and the
    [ReadTimeout] of a silent device leave the check. *)
Theorem file_exists_cases self filepath w :
  let run := file_exists self filepath w in
  let req := Request GET (get_file_path self filepath) None
               (HTTPBasicAuth "" (Some (password self))) false (Some (timeout self)) in
  trace run.2 = (trace w ++ [(req, respond (trace w) req)])%list
  ∧ display run.2 = display w ∧ log run.2 = log w
  ∧ (∀ r, respond (trace w) req = Answered r →
       run.1 = Returned (bool_decide (status_code r = 200)))
  ∧ (respond (trace w) req = ConnectionFailed → run.1 = Raised ConnectionError)
  ∧ (respond (trace w) req = TimedOut → run.1 = Raised ReadTimeout).
Proof.
  intros run req. subst run req. unfold file_exists. rewrite bind_run. unfold send.
  destruct (respond (trace w) _) as [| |r]; cbn.
  - do 3 (split; [done|]). split; [by intros r [=]|]. by split.
  - do 3 (split; [done|]). split; [by intros r [=]|]. by split.
  - do 3 (split; [done|]). split; [|by split].
    intros r' [= <-]. f_equal.
    destruct (Z.eqb_spec (status_code r) 200) as [E|E].
    + by rewrite bool_decide_eq_true_2.
    + by rewrite bool_decide_eq_false_2.
Qed.

End probes_more.

Lemma is_device_present_other_fields_witness :
  (@backends.is_device_present
     (Demo.device_answering
        (Answered (Response 200 (JSONObject {[ "web_api_version" := JStr "4" ]}))))
     Demo.self Demo.start).1 = Raised TypeError
  ∧ (@backends.is_device_present
       (Demo.device_answering
          (Answered (Response 200 (JSONObject {[ "web_api_version" := JBool true ]}))))
       Demo.self Demo.start).1 = Returned false
  ∧ (@backends.is_device_present
       (Demo.device_answering (Answered (Response 200 JSONOther)))
       Demo.self Demo.start).1 = Raised AttributeError.
Proof.
  split; [|split].
  - destruct (@is_device_present_other_fields
                (Demo.device_answering
                   (Answered (Response 200 (JSONObject {[ "web_api_version" := JStr "4" ]}))))
                Demo.self Demo.start _ eq_refl eq_refl) as (_ & _ & _ & Hstr).
    apply (Hstr _ "4" eq_refl). reflexivity.
  - destruct (@is_device_present_other_fields
                (Demo.device_answering
                   (Answered (Response 200 (JSONObject {[ "web_api_version" := JBool true ]}))))
                Demo.self Demo.start _ eq_refl eq_refl) as (_ & _ & Hbool & _).
    apply (Hbool _ true eq_refl). reflexivity.
  - destruct (@is_device_present_other_fields
                (Demo.device_answering (Answered (Response 200 JSONOther)))
                Demo.self Demo.start _ eq_refl eq_refl) as (_ & Hother & _).
    apply Hother. reflexivity.
Defined.

Lemma get_free_space_writable_values_witness :
  (@backends.get_free_space Demo.urllib
     (Demo.device_answering
        (Answered (Response 200 (JSONObject {[ "free" := JInt 100;
                                          "block_size" := JInt 512;
                                          "writable" := JInt 0 ]}))))
     Demo.self Demo.start).1 = Returned (JInt 51200).
Proof.
  apply (@get_free_space_writable_values Demo.urllib
           (Demo.device_answering
              (Answered (Response 200 (JSONObject {[ "free" := JInt 100;
                                                "block_size" := JInt 512;
                                                "writable" := JInt 0 ]}))))
           Demo.self Demo.start _ _ 100 512 (JInt 0) eq_refl eq_refl eq_refl);
    first [reflexivity|discriminate].
Defined.

(** ** The [ls] command *)

Section ls_command.
Context `{urllib : !Urllib, device : !Device, listing : !Listing}.
Import backends commands.

Lemma endswith_append (suffix s : string) : Py.endswith suffix (s +:+ suffix) = true.
Proof.
  induction s as [|c s IH].
  - change ("" +:+ suffix) with suffix.
    destruct suffix as [|a t]; [done|]. cbn [Py.endswith]. by rewrite String.eqb_refl.
  - change (String c s +:+ suffix) with (String c (s +:+ suffix)).
    cbn [Py.endswith]. by rewrite IH, orb_true_r.
Qed.

(** X14. [ls] puts the separator behind a path that lacks it: a path and
    the same path with the separator appended give the same run. *)
Theorem ls_cli_appends_separator backend file w :
  Py.endswith "/" file = false →
  ls_cli backend file w = ls_cli backend (file +:+ "/") w.
Proof.
  intros Hends. unfold ls_cli. by rewrite Hends, endswith_append.
Qed.

(** X15. What [ls] shows: the command line, the raw body of the answer,
    the header, and one line for each entry of the listing in the order
    of [sorted_by_directory_then_alpha]. The status of the answer is not
    looked at. When the body holds no usable [files] list the exception
    leaves [ls] after the raw body, before the header. *)
Theorem ls_cli_output backend file w r :
  let file' := if Py.endswith "/" file then file else file +:+ "/" in
  respond (trace w)
    (Request GET
       (urljoin (device_location backend)
                ("fs/" +:+ (if Py.truthy file' then file' else "")) true)
       None (HTTPBasicAuth "" (Some (password backend))) true
       (Some (timeout backend)))
  = Answered r →
  let run := ls_cli backend file w in
  (∀ files, json_files r = Returned files →
     run.1 = Returned ()
     ∧ display run.2
       = (display w
          ++ ["running: ls " +:+ file'; content_repr r; "Size" +:+ String "009" "" +:+ "Name"]
          ++ (ls_line <$> command_utils.sorted_by_directory_then_alpha files))%list)
  ∧ (∀ e, json_files r = Raised e →
       run.1 = Raised e
       ∧ display run.2
         = (display w ++ ["running: ls " +:+ file'; content_repr r])%list).
Proof.
  intros file' Ha run. subst run. unfold ls_cli. fold file'.
  rewrite bind_run, logger_write_run.
  rewrite bind_run, echo_run.
  rewrite bind_run. unfold list_dir. rewrite bind_run. unfold send.
  cbn [trace display log]. rewrite Ha.
  rewrite bind_run, echo_run. unfold lift.
  split.
  - intros files ->. rewrite bind_run, echo_run, for_each_echo.
    cbn [fst snd trace display log].
    split; [done|]. by rewrite <- !app_assoc.
  - intros e ->. cbn [fst snd trace display log].
    split; [done|]. by rewrite <- !app_assoc.
Qed.

End ls_command.

Lemma ls_cli_appends_separator_witness :
  @commands.ls_cli Demo.urllib (Demo.device_answering (Answered (Response 200 NotJSON)))
    Demo.listing Demo.self "lib" Demo.start
  = @commands.ls_cli Demo.urllib (Demo.device_answering (Answered (Response 200 NotJSON)))
      Demo.listing Demo.self "lib/" Demo.start.
Proof.
  apply (@ls_cli_appends_separator Demo.urllib
           (Demo.device_answering (Answered (Response 200 NotJSON))) Demo.listing
           Demo.self "lib" Demo.start).
  reflexivity.
Defined.

Lemma ls_cli_output_witness :
  let run := @commands.ls_cli Demo.urllib
               (Demo.device_answering (Answered (Response 200 NotJSON)))
               Demo.listing Demo.self "/" Demo.start in
  run.1 = Returned ()
  ∧ display run.2
    = ["running: ls /"; "b'{...}'"; "Size" +:+ String "009" "" +:+ "Name";
       "0" +:+ String "009" "" +:+ "lib/";
       "98" +:+ String "009" "" +:+ "boot_out.txt";
       "120" +:+ String "009" "" +:+ "code.py"].
Proof.
  intros run.
  destruct (@ls_cli_output Demo.urllib
              (Demo.device_answering (Answered (Response 200 NotJSON))) Demo.listing
              Demo.self "/" Demo.start (Response 200 NotJSON) eq_refl) as [Hfiles _].
  destruct (Hfiles _ eq_refl) as [Hret Hshown].
  split; [exact Hret|]. unfold run. rewrite Hshown. vm_compute. reflexivity.
Defined.

(** ** Start-up *)

Section startup.
Context `{urllib : !Urllib, device : !Device, disk : !LocalFS, computer : !Host}.
Import backends command_utils commands.

Lemma sn_ret {A} (a : A) : sends_nothing (mret a) [].
Proof. intros w. cbn. rewrite app_nil_r. by split. Qed.

Lemma sn_echo msg : sends_nothing (echo msg) [].
Proof. intros w. cbn. rewrite app_nil_r. by split. Qed.

Lemma sn_logger_write msg : sends_nothing (logger_write msg) [msg].
Proof. intros w. cbn. by split. Qed.

Lemma sn_bind {A B} (m : M A) (f : A → M B) l1 l2 :
  sends_nothing m l1 → (∀ a, sends_nothing (f a) l2) → sends_nothing (m ≫= f) (l1 ++ l2).
Proof.
  intros Hm Hf w. rewrite bind_run. destruct (Hm w) as (Ht & He & Hl).
  destruct (m w) as [[a|e] w1]; simpl in *.
  - destruct (Hf a w1) as (Ht' & He' & Hl'). split; [congruence|]. split; [done|].
    intros b Hb. by rewrite (Hl' b Hb), (Hl a eq_refl), app_assoc.
  - split; [done|]. split; [|done]. intros e0 [= <-]. by apply He.
Qed.

Lemma sn_for_each {A} (l : list A) (body : A → M unit) :
  (∀ x, sends_nothing (body x) []) → sends_nothing (for_each l body) [].
Proof.
  intros Hb. induction l as [|x l IH]; [apply sn_ret|].
  apply (sn_bind _ _ [] []); [apply Hb|]. by intros _.
Qed.

Lemma sn_get_device_path host password path :
  sends_nothing (get_device_path host password path)
    (if Py.truthy_opt path || Py.truthy_opt host then []
     else ["Found device: " +:+ Py.str_opt mounted_device]).
Proof.
  unfold get_device_path. destruct (Py.truthy_opt path); [apply sn_ret|].
  destruct (Py.truthy_opt host); [apply sn_ret|].
  unfold find_device. apply (sn_bind _ _ [_] []); [apply sn_logger_write|].
  intros _. apply sn_ret.
Qed.

(** With a host name of its own, building the backend resolves the name
    and sends no request; its errors end the process. *)
Lemma sn_connect h password device_path timeout :
  h ≠ "circuitpython.local" →
  sends_nothing (connect h password device_path timeout) [].
Proof.
  intros Hh. unfold connect.
  destruct (String.eqb_spec h "circuitpython.local") as [|_]; [done|].
  apply (sn_bind _ _ [] []); [apply sn_ret|]. intros [h' p'].
  apply (sn_bind _ _ [] []); [|intros b; apply sn_ret].
  intros w. unfold try_except, init.
  destruct password as [pw|]; [destruct (getaddrinfo h')|]; cbn;
    rewrite ?app_nil_r; (split; [done|]); (split; [|done]); by intros e [= <-].
Qed.

(** X16. For a command that needs no board, or with [--help], start-up
    with a host name other than the default sends no request to the
    device, neither the look-up of the board's name nor the presence
    check, and it does not ask for the latest release: when it returns,
    the log holds the two records of start-up, behind the record of the
    mounted board when neither a path nor a host is given, and none about
    a release. It ends normally or, when no password is known or the host
    does not resolve, with exit status 1. *)
Theorem main_boardless verbose path host password timeout w :
  stops_early = true →
  (∀ h, host = Some h → h ≠ "circuitpython.local") →
  let run := main verbose path host password timeout w in
  trace run.2 = trace w
  ∧ (run.1 = Returned () ∨ run.1 = Raised (SystemExit 1))
  ∧ (run.1 = Returned () →
       log run.2
       = (log w
          ++ (if Py.truthy_opt path || Py.truthy_opt host then []
              else ["Found device: " +:+ Py.str_opt mounted_device])
          ++ ["### Started Circfile ###";
              "Checking for a newer version of circfile"])%list).
Proof.
  intros Hstop Hhost run.
  assert (sends_nothing (main verbose path host password timeout)
            ((if Py.truthy_opt path || Py.truthy_opt host then []
              else ["Found device: " +:+ Py.str_opt mounted_device])
             ++ ["### Started Circfile ###";
                 "Checking for a newer version of circfile"])) as Hsn.
  { unfold main. rewrite Hstop.
    apply sn_bind; [apply sn_get_device_path|]. intros device_path.
    apply (sn_bind _ _ [] [_; _]); [apply sn_echo|]. intros _.
    apply (sn_bind _ _ [] [_; _]); [apply sn_echo|]. intros _.
    apply (sn_bind _ _ [] [_; _]).
    { destruct host as [h|]; [|apply sn_ret].
      apply (sn_bind _ _ [] []); [apply sn_connect; by apply Hhost|].
      intros [p b]. apply sn_ret. }
    intros [p backend].
    apply (sn_bind _ _ [] [_; _]); [destruct verbose; [apply sn_echo|apply sn_ret]|].
    intros _.
    apply (sn_bind _ _ [_] [_]); [apply sn_logger_write|]. intros _.
    apply (sn_bind _ _ [_] []); [apply sn_logger_write|]. intros _.
    apply (sn_bind _ _ [] []); [|intros _; apply sn_ret].
    destruct circup_version as [version|]; [|apply sn_ret].
    destruct (Py.truthy version); [|apply sn_ret].
    apply sn_for_each. intros line. apply sn_echo. }
  destruct (Hsn w) as (Ht & He & Hl). split; [done|]. subst run.
  destruct (main verbose path host password timeout w) as [[[]|e] w']; simpl in *.
  - split; [by left|]. intros _. by apply (Hl ()).
  - split; [|done]. right. by rewrite (He e eq_refl).
Qed.

Lemma get_device_path_run host password path w :
  ∃ device_path w1,
    get_device_path host password path w = (Returned device_path, w1)
    ∧ trace w1 = trace w ∧ display w1 = display w.
Proof.
  unfold get_device_path. destruct (Py.truthy_opt path); [by eexists _, _|].
  destruct (Py.truthy_opt host); [by eexists _, _|]. by eexists _, _.
Qed.

(** What [main] shows when the backend cannot be built. *)
Lemma main_refused verbose path h password timeout w msg :
  h ≠ "circuitpython.local" →
  (∀ w1,
     init h (match password with None => getenv_password | Some _ => password end)
          timeout w1
     = (Raised (ValueError msg), w1)
     ∨ init h (match password with None => getenv_password | Some _ => password end)
            timeout w1
       = (Raised (UnicodeError msg), w1)
     ∨ init h (match password with None => getenv_password | Some _ => password end)
            timeout w1
       = (Raised (RuntimeError msg), w1)) →
  let run := main verbose path (Some h) password timeout w in
  run.1 = Raised (SystemExit 1) ∧ trace run.2 = trace w
  ∧ display run.2
    = (display w ++ ["host: " +:+ h; "using webworkflow: True"; msg])%list.
Proof.
  intros Hh Hinit run. subst run. unfold main.
  destruct (get_device_path_run (Some h)
              (match password with None => getenv_password | Some _ => password end)
              path w) as (dp & w1 & Hdp & Ht & Hd).
  rewrite bind_run, Hdp. rewrite bind_run, echo_run. rewrite bind_run, echo_run.
  rewrite bind_run, bind_run. unfold connect.
  destruct (String.eqb_spec h "circuitpython.local") as [|_]; [done|].
  rewrite bind_run. cbn [mret M_ret]. rewrite bind_run. unfold try_except.
  match goal with |- context [init h ?p timeout ?w2] =>
    destruct (Hinit w2) as [->|[->| ->]]
  end; cbv beta iota; rewrite bind_run, echo_run; cbn; rewrite Ht, Hd, <- !app_assoc; done.
Qed.

(** X17. Start-up without a password, none on the command line and none
    in the environment, ends with exit status 1 before the host name is
    even resolved; start-up with a host name that does not resolve ends
    the same way, and so does start-up with a host name that cannot be
    encoded for the look-up. In each case no request is sent, and the
    last line shown is the error message: the message about the host
    names the host only when it holds a scheme prefix, and a name that
    cannot be encoded shows the message of the codec. *)
Theorem main_construction_errors verbose path h timeout w :
  h ≠ "circuitpython.local" →
  (getenv_password = None →
     let run := main verbose path (Some h) None timeout w in
     run.1 = Raised (SystemExit 1) ∧ trace run.2 = trace w
     ∧ display run.2
       = (display w
          ++ ["host: " +:+ h; "using webworkflow: True";
              "Must pass --password or set CIRCUP_WEBWORKFLOW_PASSWORD environment variable"])%list)
  ∧ (∀ pw, getaddrinfo h = Gaierror →
       let run := main verbose path (Some h) (Some pw) timeout w in
       run.1 = Raised (SystemExit 1) ∧ trace run.2 = trace w
       ∧ display run.2
         = (display w
            ++ ["host: " +:+ h; "using webworkflow: True";
                if Py.contains "http://" h || Py.contains "https://" h
                then "Invalid host: " +:+ h +:+ "." +:+ " You should remove the 'http://'"
                else "Could not find or connect to specified device"])%list)
  ∧ (∀ pw msg, getaddrinfo h = CodecError msg →
       let run := main verbose path (Some h) (Some pw) timeout w in
       run.1 = Raised (SystemExit 1) ∧ trace run.2 = trace w
       ∧ display run.2
         = (display w ++ ["host: " +:+ h; "using webworkflow: True"; msg])%list).
Proof.
  intros Hh. split; [|split].
  - intros Henv. apply main_refused; [done|]. intros w1. left.
    unfold init. by rewrite Henv.
  - intros pw Hres. apply (main_refused _ _ _ _ _ _ (invalid_host_message h)); [done|].
    intros w1. right. right. unfold init. by rewrite Hres.
  - intros pw msg Hres. apply main_refused; [done|]. intros w1. right. left.
    unfold init. by rewrite Hres.
Qed.

(** The presence check says yes only to an answer without an error status
    whose body is a JSON object with an integer [web_api_version] of at
    least 4; it has then sent its one request and shown nothing. *)
Lemma is_device_present_true self w w' :
  is_device_present self w = (Returned true, w') →
  ∃ r d v,
    w' = World (trace w ++ [(presence_request self, Answered r)]) (display w) (log w)
    ∧ is_error_status (status_code r) = false
    ∧ json r = JSONObject d
    ∧ d !! "web_api_version" = Some (JInt v) ∧ 4 ≤ v.
Proof.
  unfold is_device_present, try_except. cbv zeta.
  rewrite bind_run. unfold send. fold (presence_request self).
  destruct (respond (trace w) (presence_request self)) as [| |r]; cbv beta iota;
    [by cbn|by cbn|].
  rewrite bind_run. unfold raise_for_status.
  destruct (is_error_status (status_code r)) eqn:Hs; [by cbn|].
  cbn [mret M_ret]. rewrite bind_run. unfold json_of.
  destruct (json r) as [|d|] eqn:Hj; [by cbn| |by cbn].
  cbn [mret M_ret].
  destruct (d !! "web_api_version") as [[|b|v|s]|] eqn:Hv; try (by cbn).
  - by destruct b.
  - rewrite bind_run. unfold lift, PyVal.lt_int. cbv beta iota.
    destruct (Z.ltb_spec v 4); [by cbn|].
    intros [= <-]. by exists r, d, v.
Qed.

(** X18. Unless the command needs no board, start-up returns normally
    only when a host is given, a password is known, the name of the host
    resolves, the device path is known and the presence check said yes:
    the last request of the run is the presence check of the backend
    built for the host, answered without an error status by a JSON object
    with an integer [web_api_version] of at least 4, and the last line
    shown is [Found device at <device path>.], with the device path of
    [get_device_path], in which the name found on the device has replaced
    the default host name. *)
Theorem main_returns_with_device verbose path host password timeout w w' :
  stops_early = false →
  main verbose path host password timeout w = (Returned (), w') →
  ∃ h h' pw dp r d v,
    host = Some h
    ∧ match password with None => getenv_password | Some _ => password end = Some pw
    ∧ (get_device_path host (Some pw) path w).1 = Returned (Some dp)
    ∧ (h ≠ "circuitpython.local" → h' = h)
    ∧ getaddrinfo h' = Resolved
    ∧ last (trace w')
      = Some (presence_request {| host := h'; password := pw; timeout := timeout |},
              Answered r)
    ∧ is_error_status (status_code r) = false
    ∧ json r = JSONObject d
    ∧ d !! "web_api_version" = Some (JInt v) ∧ 4 ≤ v
    ∧ last (display w') = Some (found_line (final_path h h' dp)).
Proof.
  intros Hstop. unfold main. rewrite Hstop. intros H.
  apply bind_Returned in H as (device_path & w1 & Hdp & H).
  apply bind_Returned in H as (_ & w2 & _ & H).
  apply bind_Returned in H as (_ & w3 & _ & H).
  apply bind_Returned in H as ([p backend] & w4 & Hc & H).
  apply bind_Returned in H as (_ & w6 & _ & H).
  apply bind_Returned in H as (_ & w7 & _ & H).
  apply bind_Returned in H as (_ & w8 & _ & H).
  apply bind_Returned in H as (_ & w9 & _ & H).
  apply bind_Returned in H as (_ & w10 & _ & H).
  apply bind_Returned in H as (present & w11 & Hpresent & H).
  destruct present; [|by cbn in H].
  destruct p as [p|]; [|by cbn in Hpresent].
  destruct backend as [b|]; [|by cbn in Hpresent].
  destruct host as [h|]; [|by cbn in Hc].
  apply bind_Returned in Hc as ([p' b'] & w5 & Hc & [= -> -> <-]).
  apply connect_path in Hc as (h' & pw & Hh' & Hp & Hpw & Hres & ->).
  destruct device_path as [dp|]; [|by cbn in Hp]. injection Hp as ->.
  apply is_device_present_true in Hpresent as (r & d & v & -> & Hs & Hj & Hv & Hge).
  rewrite echo_run in H. injection H as <-.
  exists h, h', pw, dp, r, d, v. rewrite Hpw in *. rewrite Hdp.
  cbn [fst snd trace display]. rewrite !last_snoc. done.
Qed.

Lemma last_split_cases (sep : ascii) (s t : string) :
  last (Py.split sep s) = Some t →
  (Py.split sep s = [s] ∧ t = s) ∨ ∃ before, s = before +:+ String sep t.
Proof.
  revert t. induction s as [|c s IH]; intros t; simpl.
  - intros [= <-]. by left.
  - destruct (Ascii.eqb_spec c sep) as [->|Hc].
    + destruct (Py.split sep s) as [|w ws] eqn:Hs; [by destruct (split_not_nil sep s)|].
      rewrite last_cons_cons. intros Ht. right.
      destruct (IH t Ht) as [[_ ->]|[b ->]]; [by exists ""|by exists (String sep b)].
    + destruct (Py.split sep s) as [|w [|w' ws]] eqn:Hs.
      * by destruct (split_not_nil sep s).
      * intros [= <-]. apply split_singleton in Hs as ->. by left.
      * rewrite last_cons_cons. intros Ht. right.
        destruct (IH t) as [[[=] _]|[b ->]]; [by rewrite last_cons_cons|].
        by exists (String c b).
Qed.

(** X19. The release tag is the part of the final URL behind its last
    slash: the tag holds no slash, and the URL is some text, a slash and
    the tag, or it is the tag itself when it holds no slash at all. For a
    redirect the [Location] header is that URL. Two lines are logged, the
    request and the tag; when the request fails only the first one is,
    and the connection error is raised. *)
Theorem get_latest_release_from_url_tag url w :
  let run := shared.get_latest_release_from_url url w in
  (release_head = None →
     run = (Raised ConnectionError,
            World (trace w) (display w)
                  (log w ++ ["Requesting redirect information: " +:+ url])))
  ∧ (∀ response_url location,
       release_head = Some (response_url, location) →
       let responseurl := default response_url location in
       ∃ tag,
         run = (Returned tag,
                World (trace w) (display w)
                      (log w ++ ["Requesting redirect information: " +:+ url;
                                 "Tag: '" +:+ tag +:+ "'"]))
         ∧ Py.contains "/" tag = false
         ∧ ((∃ before, responseurl = before +:+ "/" +:+ tag)
            ∨ (responseurl = tag ∧ Py.contains "/" responseurl = false))).
Proof.
  intros run. subst run. unfold shared.get_latest_release_from_url.
  rewrite bind_run, logger_write_run. split.
  - by intros ->.
  - intros response_url location ->. cbv zeta.
    pose proof (split_no_sep "/" (default response_url location)) as Hsep.
    pose proof (last_split_cases "/" (default response_url location)) as Hcases.
    destruct (last (Py.split "/" (default response_url location))) as [tag|] eqn:Hlast.
    2:{ apply last_None in Hlast. by apply split_not_nil in Hlast. }
    assert (Py.contains "/" tag = false) as Htag.
    { rewrite Forall_forall in Hsep. apply Hsep. by apply last_Some_elem_of. }
    exists tag. cbn [default id]. rewrite bind_run, logger_write_run.
    cbn [trace display log mret M_ret]. rewrite <- app_assoc.
    split; [done|]. split; [done|].
    destruct (Hcases tag eq_refl) as [[_ ->]|[before Hbefore]]; [by right|].
    left. by exists before.
Qed.

(** X20. With the default host name, start-up first asks
    [http://circuitpython.local/cp/version.json], without credentials,
    for the name of the board, whatever the status of the answer. A body
    without [hostname] raises [KeyError]. Otherwise the backend is built
    for [<hostname>.local], two lines are shown, and the default name is
    replaced in the device path. *)
Theorem connect_default_host pw p timeout w r d :
  let req := Request GET "http://circuitpython.local/cp/version.json" None NoAuth
               false (Some timeout) in
  let w0 := World (trace w)
              (display w ++ ["Checking versions.json on circuitpython.local to find hostname"])
              (log w) in
  respond (trace w) req = Answered r →
  json r = JSONObject d →
  let run := connect "circuitpython.local" (Some pw) (Some p) timeout w in
  (d !! "hostname" = None →
     run = (Raised KeyError, World (trace w ++ [(req, Answered r)]) (display w0) (log w)))
  ∧ (∀ v, d !! "hostname" = Some v →
       getaddrinfo (PyVal.str v +:+ ".local") = Resolved →
       run = (Returned (Some (Py.replace "circuitpython.local" (PyVal.str v +:+ ".local") p),
                        {| host := PyVal.str v +:+ ".local"; password := pw;
                           timeout := timeout |}),
              World (trace w ++ [(req, Answered r)])
                    (display w0 ++ ["Using hostname: " +:+ (PyVal.str v +:+ ".local")])
                    (log w))).
Proof.
  intros req w0 Ha Hj run. subst run req w0. unfold connect.
  change (String.eqb "circuitpython.local" "circuitpython.local") with true.
  cbv beta iota. rewrite !bind_run, echo_run. cbv beta iota.
  rewrite bind_run. unfold send. cbn [trace display log]. rewrite Ha.
  cbv beta iota. rewrite bind_run. unfold json_of. rewrite Hj. cbn [mret M_ret].
  rewrite bind_run. split.
  - by intros ->.
  - intros v -> Hres. cbn [mret M_ret]. rewrite bind_run, echo_run.
    cbn [mret M_ret trace display log]. rewrite bind_run.
    unfold try_except, init. by rewrite Hres.
Qed.

End startup.

Lemma main_boardless_witness :
  let run := @commands.main (Demo.device_answering ConnectionFailed) Demo.computer_show
               false None (Some "dev.local") (Some "pw") 30 Demo.start in
  trace run.2 = [] ∧ run.1 = Returned ()
  ∧ log run.2 = ["### Started Circfile ###"; "Checking for a newer version of circfile"].
Proof.
  intros run.
  destruct (@main_boardless (Demo.device_answering ConnectionFailed) Demo.computer_show
              false None (Some "dev.local") (Some "pw") 30 Demo.start)
    as (Htrace & Hend & Hlog).
  - reflexivity.
  - intros h [= <-]. discriminate.
  - split; [exact Htrace|]. split; [reflexivity|]. apply Hlog. reflexivity.
Defined.

(** A host computer without a password, and the host name [a..b], whose
    empty label the codec refuses. *)
Lemma main_construction_errors_witness :
  let run := @commands.main (Demo.device_answering ConnectionFailed) Demo.computer
               false None (Some "dev.local") None 30 Demo.start in
  let codec := "encoding with 'idna' codec failed (UnicodeError: label empty or too long)" in
  let refused := @commands.main
                   {| getaddrinfo h := if String.eqb h "a..b" then CodecError codec
                                       else Resolved;
                      respond _ _ := ConnectionFailed |}
                   Demo.computer false None (Some "a..b") (Some "pw") 30 Demo.start in
  (run.1 = Raised (SystemExit 1) ∧ trace run.2 = []
   ∧ display run.2
     = ["host: dev.local"; "using webworkflow: True";
        "Must pass --password or set CIRCUP_WEBWORKFLOW_PASSWORD environment variable"])
  ∧ (refused.1 = Raised (SystemExit 1) ∧ trace refused.2 = []
     ∧ display refused.2 = ["host: a..b"; "using webworkflow: True"; codec]).
Proof.
  intros run codec refused. split.
  - destruct (@main_construction_errors (Demo.device_answering ConnectionFailed)
                Demo.computer false None "dev.local" 30 Demo.start) as [Hpw _].
    + discriminate.
    + apply Hpw. reflexivity.
  - destruct (@main_construction_errors
                {| getaddrinfo h := if String.eqb h "a..b" then CodecError codec
                                    else Resolved;
                   respond _ _ := ConnectionFailed |}
                Demo.computer false None "a..b" 30 Demo.start) as (_ & _ & Hcodec).
    + discriminate.
    + apply (Hcodec "pw" codec). reflexivity.
Defined.

Lemma main_returns_with_device_witness :
  let device := scripted_device (λ _, Resolved)
                  [Answered (Response 200 (JSONObject {[ "web_api_version" := JInt 4 ]}))] in
  let run := @commands.main device Demo.computer false None
               (Some "dev.local") (Some "pw") 30 Demo.start in
  last (display run.2) = Some "Found device at http://:pw@dev.local."
  ∧ fst <$> last (trace run.2)
    = Some (Request GET "http://:pw@dev.local/cp/version.json" None NoAuth false None).
Proof.
  intros device run.
  destruct (@main_returns_with_device device Demo.computer false None
              (Some "dev.local") (Some "pw") 30 Demo.start run.2)
    as (h & h' & pw & dp & r & d & v
        & [= <-] & [= <-] & [= <-] & Hh' & _ & Htrace & _ & _ & _ & _ & Hshown).
  - reflexivity.
  - vm_compute. reflexivity.
  - rewrite Hshown, Htrace, (Hh' ltac:(discriminate)). split; reflexivity.
Defined.

(** The release page redirects to the page of the tag [9.2.0]. *)
Lemma get_latest_release_from_url_tag_witness :
  (@shared.get_latest_release_from_url Demo.computer
     "https://github.com/adafruit/circuitpython/releases/latest" Demo.start).1
  = Returned "9.2.0"
  ∧ ∃ before,
      "https://github.com/adafruit/circuitpython/releases/tag/9.2.0"
      = before +:+ "/" +:+ "9.2.0".
Proof.
  destruct (@get_latest_release_from_url_tag Demo.computer
              "https://github.com/adafruit/circuitpython/releases/latest" Demo.start)
    as [_ Htag].
  destruct (Htag _ None eq_refl) as (tag & Hrun & _ & Hsplit).
  assert (tag = "9.2.0") as ->.
  { vm_compute in Hrun. by injection Hrun as <-. }
  split; [by rewrite Hrun|].
  destruct Hsplit as [Hbefore|[Hwhole _]]; [exact Hbefore|discriminate].
Defined.

Lemma connect_default_host_witness :
  let device := scripted_device (λ _, Resolved)
                  [Answered (Response 200 (JSONObject {[ "hostname" := JStr "cpy-f57ce8" ]}))] in
  (@commands.connect device "circuitpython.local" (Some "pw")
     (Some "http://:pw@circuitpython.local") 30 Demo.start).1
  = Returned (Some "http://:pw@cpy-f57ce8.local",
              {| host := "cpy-f57ce8.local"; password := "pw"; timeout := 30 |}).
Proof.
  intros device.
  destruct (@connect_default_host device "pw" "http://:pw@circuitpython.local" 30
              Demo.start _ _ eq_refl eq_refl) as [_ Hname].
  rewrite (Hname (JStr "cpy-f57ce8") eq_refl eq_refl). reflexivity.
Defined.

(** ** Uploading what is not there *)

Section missing_source.
Context `{urllib : !Urllib, device : !Device, disk : !LocalFS}.
Import backends.

Lemma source_name_nonempty (source : string) :
  source ≠ "" → ∃ n, source_name source = Returned n.
Proof.
  intros Hne. unfold source_name.
  destruct (last (Py.split "/" source)) as [n|] eqn:Hlast; last first.
  { apply last_None in Hlast. by apply split_not_nil in Hlast. }
  destruct n as [|c n']; [|by eexists].
  case_decide as Hlen; [by eexists|]. exfalso. apply Hne.
  destruct (Py.split "/" source) as [|w [|w' ws]] eqn:Hs; simpl in *; try lia.
  - by destruct (split_not_nil "/" source).
  - injection Hlast as ->. by apply split_singleton in Hs.
Qed.

(** X21. Uploading a path that does not exist on the local disk raises
    the error of [open] and sends nothing, with or without a
    destination; the directory mirror called on the same path would
    create an empty directory on the device instead. *)
Theorem upload_file_missing_source self target_file location_to_paste w :
  target_file ≠ "" →
  lookup_path target_file = None →
  upload_file self target_file location_to_paste w = (Raised OSError, w).
Proof.
  intros Hne Hmissing. unfold upload_file, isdir. rewrite Hmissing.
  unfold install_file_http. destruct (source_name_nonempty target_file Hne) as [n Hn].
  rewrite bind_run, Hn. unfold lift. cbv beta iota.
  rewrite bind_run. unfold read_file. by rewrite Hmissing.
Qed.

End missing_source.

Lemma upload_file_missing_source_witness :
  @backends.upload_file Demo.urllib (Demo.device_answering (Answered (Response 200 NotJSON)))
    Demo.disk Demo.self "notes.txt" (Some "sub/") Demo.start
  = (Raised OSError, Demo.start).
Proof.
  apply (@upload_file_missing_source Demo.urllib
           (Demo.device_answering (Answered (Response 200 NotJSON))) Demo.disk
           Demo.self "notes.txt" (Some "sub/") Demo.start).
  - discriminate.
  - reflexivity.
Defined.
